(** * skybook-events-handler: validate-then-persist request handler

    A shallow embedding of the TypeScript sources

      - [src/validateData.ts]   (the current, url-checking validator),
      - the earlier validator   (non-null-object check only),
      - [src/saveData.ts]       (the persister),
      - [src/index.ts]          (getEnvVar, getPort, PORT, SAVE_FOLDER,
                                 processRequest, errorHandler),

    and of the platform operations they call (typeof, property access,
    String.prototype.trim, parseInt, JSON.stringify, Date formatting,
    path.join, fs.mkdir, fs.writeFile, console), followed by the
    properties of the specification that were checked against them.

    ECMAScript strings are sequences of 16-bit code units; they are lists
    of [N] here.  A thrown exception is the [Throw] of a completion.  What
    the program does to the outside is a function on a [world]: the
    directories and files, the number of clock readings, and the list of
    calls and outputs so far.  The program never looks into a payload
    number, so the Number type is a parameter, with the four platform
    operations that touch a payload number.  What the file system refuses,
    what the clock reads, and how [path.join] builds a path are parameters
    as well: the properties hold for every choice of them. *)

From Stdlib Require Import ZArith NArith List String Ascii Bool Lia.
From Stdlib Require Import DecimalN DecimalPos.
From stdpp Require Import base option list gmap.

Set Warnings "-register-all".

Import ListNotations.
Local Open Scope N_scope.
Local Open Scope list_scope.

(** ** Strings *)

Abbreviation code_unit := N (only parsing).
Abbreviation jsstring := (list N) (only parsing).

(** A source-code string literal (ASCII only) as a code-unit sequence. *)
Definition lit (s : string) : jsstring :=
  map N_of_ascii (list_ascii_of_string s).

Arguments lit : simpl never.

(** [a === b] on two strings. *)
Fixpoint str_eq (a b : jsstring) : bool :=
  match a, b with
  | [], [] => true
  | x :: a', y :: b' => (x =? y) && str_eq a' b'
  | _, _ => false
  end.

(** [s === ''] *)
Definition is_empty (s : jsstring) : bool :=
  match s with [] => true | _ :: _ => false end.

(** WhiteSpace and LineTerminator code points, the characters removed by
    [String.prototype.trim] and skipped by [parseInt]. *)
Definition is_white_space (c : code_unit) : bool :=
  (c =? 9) || (c =? 10) || (c =? 11) || (c =? 12) || (c =? 13) || (c =? 32)
  || (c =? 160) || (c =? 5760) || ((8192 <=? c) && (c <=? 8202))
  || (c =? 8232) || (c =? 8233) || (c =? 8239) || (c =? 8287)
  || (c =? 12288) || (c =? 65279).

Fixpoint trimStart (s : jsstring) : jsstring :=
  match s with
  | c :: r => if is_white_space c then trimStart r else s
  | [] => []
  end.

Definition trimEnd (s : jsstring) : jsstring := rev (trimStart (rev s)).

Definition trim (s : jsstring) : jsstring := trimEnd (trimStart s).

(** Surrogates: a lead and a trail code unit together stand for one
    character outside the basic plane. *)
Definition is_lead_surrogate (c : code_unit) : bool := (55296 <=? c) && (c <=? 56319).
Definition is_trail_surrogate (c : code_unit) : bool := (56320 <=? c) && (c <=? 57343).

(** A string without lone surrogates: the encoding utf8 stores such a
    string without loss. *)
Fixpoint well_formed (s : jsstring) : bool :=
  match s with
  | [] => true
  | c :: r =>
      if is_lead_surrogate c then
        match r with
        | d :: r' => is_trail_surrogate d && well_formed r'
        | [] => false
        end
      else negb (is_trail_surrogate c) && well_formed r
  end.

(** ** Errors and completions *)

Inductive error :=
| Error (message : jsstring)
| TypeError (message : jsstring).

Definition message (e : error) : jsstring :=
  match e with Error m | TypeError m => m end.

(** The outcome of evaluating an expression: a value or a thrown error. *)
Inductive completion (A : Type) :=
| Normal (a : A)
| Throw (e : error).
Arguments Normal {A} a.
Arguments Throw {A} e.

#[global] Instance completion_ret : MRet completion := @Normal.
#[global] Instance completion_bind : MBind completion :=
  fun A B f m => match m with Normal a => f a | Throw e => Throw e end.

(** ** Decimal digits *)

Definition is_digit (c : code_unit) : bool := (48 <=? c) && (c <=? 57).

(** The digits of a decimal numeral, most significant first. *)
Fixpoint digits_of_uint (d : Decimal.uint) : jsstring :=
  match d with
  | Decimal.Nil => []
  | Decimal.D0 d => 48 :: digits_of_uint d
  | Decimal.D1 d => 49 :: digits_of_uint d
  | Decimal.D2 d => 50 :: digits_of_uint d
  | Decimal.D3 d => 51 :: digits_of_uint d
  | Decimal.D4 d => 52 :: digits_of_uint d
  | Decimal.D5 d => 53 :: digits_of_uint d
  | Decimal.D6 d => 54 :: digits_of_uint d
  | Decimal.D7 d => 55 :: digits_of_uint d
  | Decimal.D8 d => 56 :: digits_of_uint d
  | Decimal.D9 d => 57 :: digits_of_uint d
  end.

(** [n.toString()] for a non-negative integer [n]. *)
Definition decimal (n : N) : jsstring := digits_of_uint (N.to_uint n).

(** Puts the digit with character code [c] in front of a numeral. *)
Definition push_digit (c : code_unit) (d : Decimal.uint) : Decimal.uint :=
  if c =? 48 then Decimal.D0 d else if c =? 49 then Decimal.D1 d
  else if c =? 50 then Decimal.D2 d else if c =? 51 then Decimal.D3 d
  else if c =? 52 then Decimal.D4 d else if c =? 53 then Decimal.D5 d
  else if c =? 54 then Decimal.D6 d else if c =? 55 then Decimal.D7 d
  else if c =? 56 then Decimal.D8 d else Decimal.D9 d.

(** The longest prefix of decimal digits of a string, as a numeral. *)
Fixpoint read_digits (s : jsstring) : Decimal.uint :=
  match s with
  | c :: r => if is_digit c then push_digit c (read_digits r) else Decimal.Nil
  | [] => Decimal.Nil
  end.

(** [s.padStart(n, fill)] for a one-character [fill]. *)
Definition padStart (n : nat) (fill : code_unit) (s : jsstring) : jsstring :=
  repeat fill (n - length s) ++ s.

(** [s.replace(/c/g, by)]: every occurrence of the character [c] replaced. *)
Definition replace_all (c by_ : code_unit) (s : jsstring) : jsstring :=
  map (fun x => if x =? c then by_ else x) s.

(** [s.split(' ')[0]]: the text before the first space. *)
Fixpoint before_space (s : jsstring) : jsstring :=
  match s with
  | c :: r => if c =? 32 then [] else c :: before_space r
  | [] => []
  end.

(** The [k] numbers from [from] on, for checks over a range. *)
Fixpoint N_range (k : nat) (from : N) : list N :=
  match k with
  | O => []
  | S k' => from :: N_range k' (N.succ from)
  end.

(** ** Configuration: getEnvVar, getPort, PORT, SAVE_FOLDER *)

(** [parseInt(s, 10)]: leading white space is skipped, one sign is read,
    then the longest run of decimal digits; no digit gives NaN ([None]).
    The result is the Number for [sign * digits]; the three tests of
    [getPort] compare it with 1024 and 65535, where the conversion to a
    Number is exact and order preserving, so the integer stands for it. *)
Definition parseInt (s : jsstring) : option Z :=
  let S := trimStart s in
  let sign : Z := match S with c :: _ => if c =? 45 then (-1)%Z else 1%Z | [] => 1%Z end in
  let S := match S with c :: r => if (c =? 43) || (c =? 45) then r else S | [] => S end in
  match read_digits S with
  | Decimal.Nil => None
  | d => Some (sign * Z.of_N (N.of_uint d))%Z
  end.

(** [src/index.ts]:
<<
  const port = parseInt(portString, 10);
  if (isNaN(port) || port < 1024 || port > 65535) {
    throw new Error(`Invalid PORT_NUMBER: ${portString}`);
  }
  return port;
>> *)
Definition getPort (portString : jsstring) : completion Z :=
  let port := parseInt portString in
  match port with
  | None => Throw (Error (lit "Invalid PORT_NUMBER: " ++ portString))
  | Some p =>
      if (p <? 1024)%Z || (p >? 65535)%Z
      then Throw (Error (lit "Invalid PORT_NUMBER: " ++ portString))
      else Normal p
  end.

(** [process.env]: the variables that are set, with their values. *)
Abbreviation environment := (gmap (list N) (list N)) (only parsing).

(** A truthy [process.env[key]]: the variable is set and not empty. *)
Definition truthy (value : option jsstring) : option jsstring :=
  match value with
  | Some (c :: r) => Some (c :: r)
  | _ => None
  end.

(** [src/index.ts]:
<<
  const value = process.env[key];
  if (!value && defaultValue === undefined) {
    throw new Error(`Environment variable ${key} is not set`);
  }
  return value || defaultValue!;
>> *)
Definition getEnvVar (env : environment) (key : jsstring)
    (defaultValue : option jsstring) : completion jsstring :=
  let value := env !! key in
  match truthy value, defaultValue with
  | None, None =>
      Throw (Error (lit "Environment variable " ++ key ++ lit " is not set"))
  | Some v, _ => Normal v
  | None, Some d => Normal d
  end.

(** [export const PORT = getPort(getEnvVar('PORT_NUMBER', '3000'))]. *)
Definition PORT (env : environment) : completion Z :=
  s ← getEnvVar env (lit "PORT_NUMBER") (Some (lit "3000")); getPort s.

(** [export const SAVE_FOLDER = getEnvVar('DATA_LOCATION', './data')]. *)
Definition SAVE_FOLDER (env : environment) : completion jsstring :=
  getEnvVar env (lit "DATA_LOCATION") (Some (lit "./data")).

(** ** Dates *)

(** A reading of the wall clock, by its fields in local time, and the name
    of the time zone as [toTimeString] prints it, for instance
    [GMT+0000 (Coordinated Universal Time)]. *)
Record Date := {
  year : N;
  month : N;
  day : N;
  hours : N;
  minutes : N;
  seconds : N;
  milliseconds : N;
  zone : list N
}.

Definition two_digits (n : N) : jsstring := padStart 2 48 (decimal n).

(** [d.toLocaleDateString('en-GB')]: day, month and the full year,
    separated by slashes, day and month on two digits. *)
Definition toLocaleDateString_enGB (d : Date) : jsstring :=
  two_digits (day d) ++ lit "/" ++ two_digits (month d) ++ lit "/" ++ decimal (year d).

(** [d.toTimeString()]: hours, minutes and seconds on two digits,
    separated by colons, a space, and the time zone. *)
Definition toTimeString (d : Date) : jsstring :=
  two_digits (hours d) ++ lit ":" ++ two_digits (minutes d) ++ lit ":" ++
  two_digits (seconds d) ++ lit " " ++ zone d.

(** [d.getMilliseconds()]. *)
Definition getMilliseconds (d : Date) : N := milliseconds d.

(** The synthesized file name of [src/saveData.ts]:
<<
  const formattedDate = now.toLocaleDateString('en-GB').replace(/\//g, '-');
  const time = now.toTimeString().split(' ')[0].replace(/:/g, '-');
  const milliseconds = now.getMilliseconds().toString().padStart(3, '0');
  return `data-${formattedDate}_${time}-${milliseconds}.json`;
>> *)
Definition timestamp_name (now : Date) : jsstring :=
  let formattedDate := replace_all 47 45 (toLocaleDateString_enGB now) in
  let time := replace_all 58 45 (before_space (toTimeString now)) in
  let milliseconds := padStart 3 48 (decimal (getMilliseconds now)) in
  lit "data-" ++ formattedDate ++ lit "_" ++ time ++ lit "-" ++ milliseconds ++ lit ".json".

(** ** A concrete platform, for examples *)

(** The integers among the Numbers: [n.toString()] and the reading of an
    integer literal of JSON, which has no leading zero. *)
Definition int_to_string (z : Z) : jsstring :=
  match z with
  | Z0 => [48]
  | Zpos p => decimal (Npos p)
  | Zneg p => 45 :: decimal (Npos p)
  end.

Definition int_of_string (s : jsstring) : option Z :=
  let neg := match s with c :: _ => c =? 45 | [] => false end in
  let ds := match s with c :: r => if c =? 45 then r else s | [] => s end in
  match ds with
  | [] => None
  | c :: r =>
      if forallb is_digit ds && (negb (c =? 48) || is_empty r)
      then Some (let n := Z.of_N (N.of_uint (read_digits ds)) in
                 if neg then (- n)%Z else n)
      else None
  end.

(** [path.join] on a folder and a plain file name. *)
Definition slash_join (folder name : jsstring) : jsstring := folder ++ [47] ++ name.

(** [path.join] of Node on POSIX, for a folder and a name.  The arguments
    that are not empty are put together with a slash and the result is
    normalized: empty segments and [.] go away, and [..] takes away the
    segment before it, or stays in a relative path that has none left. *)
Fixpoint segments (cur s : jsstring) : list jsstring :=
  match s with
  | [] => [cur]
  | c :: r => if c =? 47 then cur :: segments [] r else segments (cur ++ [c]) r
  end.

(** The segments kept so far, the latest first, after one more segment. *)
Definition push_segment (allowAboveRoot : bool) (res : list jsstring)
    (seg : jsstring) : list jsstring :=
  if is_empty seg || str_eq seg (lit ".") then res
  else if str_eq seg (lit "..") then
    match res with
    | top :: rest =>
        if str_eq top (lit "..")
        then (if allowAboveRoot then seg :: res else res)
        else rest
    | [] => if allowAboveRoot then [seg] else []
    end
  else seg :: res.

Fixpoint join_slash (parts : list jsstring) : jsstring :=
  match parts with
  | [] => []
  | [x] => x
  | x :: r => x ++ 47 :: join_slash r
  end.

Definition normalizeString (path : jsstring) (allowAboveRoot : bool) : jsstring :=
  join_slash (rev (fold_left (push_segment allowAboveRoot) (segments [] path) [])).

Definition normalize (path : jsstring) : jsstring :=
  match path with
  | [] => lit "."
  | c :: _ =>
      let isAbsolute := c =? 47 in
      let trailingSeparator :=
        match rev path with l :: _ => l =? 47 | [] => false end in
      match normalizeString path (negb isAbsolute) with
      | [] =>
          if isAbsolute then lit "/"
          else if trailingSeparator then lit "./" else lit "."
      | p =>
          let p := if trailingSeparator then p ++ lit "/" else p in
          if isAbsolute then 47 :: p else p
      end
  end.

Definition posix_join (folder name : jsstring) : jsstring :=
  match folder, name with
  | [], [] => lit "."
  | [], _ => normalize name
  | _, [] => normalize folder
  | _, _ => normalize (folder ++ 47 :: name)
  end.

(** 3 November 2026, 14:05:09.007, in UTC. *)
Definition example_now : Date :=
  {| year := 2026; month := 11; day := 3; hours := 14; minutes := 5;
     seconds := 9; milliseconds := 7;
     zone := lit "GMT+0000 (Coordinated Universal Time)" |}.

(** ** Values *)

Section Program.

(** The Number type and the operations of the platform on a payload
    number: ToBoolean, the finiteness test of JSON.stringify,
    Number::toString, and the reading of a JSON number literal by
    JSON.parse ([None] when the text is no number literal). *)
Context {num : Type}.
Variable num_truthy : num -> bool.
Variable num_finite : num -> bool.
Variable NumberToString : num -> jsstring.
Variable StringToNumber : jsstring -> option num.

(** The values a request body and its parts can be: what JSON.parse
    produces, and [undefined] for what is absent. *)
Inductive value :=
| Undefined
| Null
| Bool (b : bool)
| Number (n : num)
| String (s : jsstring)
| Array (elems : list value)
| Object (props : list (jsstring * value)).

(** [typeof v]. *)
Definition typeof (v : value) : jsstring :=
  match v with
  | Undefined => lit "undefined"
  | Null => lit "object"
  | Bool _ => lit "boolean"
  | Number _ => lit "number"
  | String _ => lit "string"
  | Array _ => lit "object"
  | Object _ => lit "object"
  end.

(** [v === null]. *)
Definition is_null (v : value) : bool :=
  match v with Null => true | _ => false end.

(** [v === undefined || v === null], the test of the [?.] operator. *)
Definition is_nullish (v : value) : bool :=
  match v with Undefined | Null => true | _ => false end.

(** ToBoolean. *)
Definition ToBoolean (v : value) : bool :=
  match v with
  | Undefined | Null => false
  | Bool b => b
  | Number n => num_truthy n
  | String s => negb (is_empty s)
  | Array _ | Object _ => true
  end.

(** The own property [k] of a property list; a missing property reads as
    [undefined]. *)
Fixpoint lookup_prop (k : jsstring) (props : list (jsstring * value)) : value :=
  match props with
  | [] => Undefined
  | (k', v) :: r => if str_eq k k' then v else lookup_prop k r
  end.

(** Property read [o.k] (and the destructuring [const {k} = o]), for the
    three names the program reads: url, fileData and fileName.  None of
    them is defined on a built-in prototype, so on arrays and on primitives
    the read yields [undefined]; on [undefined] and [null] it throws. *)
Definition Get (o : value) (k : jsstring) : completion value :=
  match o with
  | Undefined =>
      Throw (TypeError (lit "Cannot read properties of undefined (reading '" ++ k ++ lit "')"))
  | Null =>
      Throw (TypeError (lit "Cannot read properties of null (reading '" ++ k ++ lit "')"))
  | Object props => Normal (lookup_prop k props)
  | _ => Normal Undefined
  end.

(** The method call [v.trim()]: defined on strings only; on every other
    value the call throws. *)
Definition call_trim (v : value) : completion jsstring :=
  match v with
  | String s => Normal (trim s)
  | Undefined | Null =>
      Throw (TypeError (lit "Cannot read properties of undefined (reading 'trim')"))
  | _ => Throw (TypeError (lit "trim is not a function"))
  end.

(** ** The validators *)

(** [src/validateData.ts], the current validator (variant b):
<<
  if (typeof data !== 'object' || data === null) { return false; }
  const { url } = data as { url: unknown };
  return typeof url === 'string' && url.trim().length > 0;
>> *)
Definition validateData (data : value) : completion bool :=
  if negb (str_eq (typeof data) (lit "object")) || is_null data then Normal false
  else
    url ← Get data (lit "url");
    if str_eq (typeof url) (lit "string") then
      t ← call_trim url;
      Normal (0 <? N.of_nat (length t))
    else Normal false.

(** The earlier validator (variant a):
<<
  return typeof data === 'object' && data !== null;
>> *)
Definition validateData_a (data : value) : completion bool :=
  Normal (str_eq (typeof data) (lit "object") && negb (is_null data)).

(** ** JSON.stringify(data, null, 2) *)

Definition hex_digit (n : N) : code_unit := if n <? 10 then 48 + n else 87 + n.

(** UnicodeEscape: a backslash, [u] and four lower-case hexadecimal digits. *)
Definition UnicodeEscape (c : code_unit) : jsstring :=
  [92; 117; hex_digit (c / 4096 mod 16); hex_digit (c / 256 mod 16);
   hex_digit (c / 16 mod 16); hex_digit (c mod 16)].

(** One code unit that is not a surrogate, as QuoteJSONString writes it. *)
Definition quote_unit (c : code_unit) : jsstring :=
  if c =? 8 then [92; 98] else if c =? 9 then [92; 116]
  else if c =? 10 then [92; 110] else if c =? 12 then [92; 102]
  else if c =? 13 then [92; 114] else if c =? 34 then [92; 34]
  else if c =? 92 then [92; 92]
  else if c <? 32 then UnicodeEscape c
  else [c].

(** The characters between the quotes: a surrogate pair is copied, a lone
    surrogate is escaped. *)
Fixpoint quote_chars (s : jsstring) : jsstring :=
  match s with
  | [] => []
  | c :: r =>
      if is_lead_surrogate c then
        match r with
        | d :: r' =>
            if is_trail_surrogate d then c :: d :: quote_chars r'
            else UnicodeEscape c ++ quote_chars r
        | [] => UnicodeEscape c
        end
      else if is_trail_surrogate c then UnicodeEscape c ++ quote_chars r
      else quote_unit c ++ quote_chars r
  end.

Definition QuoteJSONString (s : jsstring) : jsstring :=
  [34] ++ quote_chars s ++ [34].

(** [parts.join(sep)]. *)
Fixpoint join (sep : jsstring) (parts : list jsstring) : jsstring :=
  match parts with
  | [] => []
  | [x] => x
  | x :: r => x ++ sep ++ join sep r
  end.

(** The gap of [JSON.stringify(_, null, 2)]: two spaces. *)
Definition gap : jsstring := [32; 32].

(** The text of a non-empty array or object: the parts one per line at the
    new indentation, between the brackets [open] and [close]. *)
Definition wrap (open close : code_unit) (stepback : jsstring)
    (partial : list jsstring) : jsstring :=
  match partial with
  | [] => [open; close]
  | _ =>
      let indent := stepback ++ gap in
      [open] ++ [10] ++ indent ++ join ([44; 10] ++ indent) partial ++
      [10] ++ stepback ++ [close]
  end.

(** SerializeJSONProperty at the indentation [indent]; [None] stands for
    [undefined].  In an array [undefined] is written [null]; in an object
    a property whose value is [undefined] is left out. *)
Fixpoint SerializeJSONProperty (indent : jsstring) (v : value) : option jsstring :=
  match v with
  | Undefined => None
  | Null => Some (lit "null")
  | Bool true => Some (lit "true")
  | Bool false => Some (lit "false")
  | String s => Some (QuoteJSONString s)
  | Number n => Some (if num_finite n then NumberToString n else lit "null")
  | Array elems =>
      Some (wrap 91 93 indent
              (map (fun e => default (lit "null")
                                (SerializeJSONProperty (indent ++ gap) e)) elems))
  | Object props =>
      Some (wrap 123 125 indent
              (omap (fun kv => match kv with
                               | (k, e) =>
                                   match SerializeJSONProperty (indent ++ gap) e with
                                   | Some str => Some (QuoteJSONString k ++ [58; 32] ++ str)
                                   | None => None
                                   end
                               end) props))
  end.

(** [JSON.stringify(data, null, 2)]. *)
Definition JSON_stringify (data : value) : option jsstring :=
  SerializeJSONProperty [] data.

(** ** JSON.parse *)

Definition is_json_ws (c : code_unit) : bool :=
  (c =? 9) || (c =? 10) || (c =? 13) || (c =? 32).

Fixpoint skip_ws (s : jsstring) : jsstring :=
  match s with
  | c :: r => if is_json_ws c then skip_ws r else s
  | [] => []
  end.

(** The characters a JSON number is made of. *)
Definition is_number_char (c : code_unit) : bool :=
  is_digit c || (c =? 45) || (c =? 43) || (c =? 46) || (c =? 101) || (c =? 69).

Fixpoint span_number (s : jsstring) : jsstring * jsstring :=
  match s with
  | c :: r =>
      if is_number_char c then let (t, rest) := span_number r in (c :: t, rest)
      else ([], s)
  | [] => ([], [])
  end.

Definition hex_value (c : code_unit) : option N :=
  if is_digit c then Some (c - 48)
  else if (97 <=? c) && (c <=? 102) then Some (c - 87)
  else if (65 <=? c) && (c <=? 70) then Some (c - 55)
  else None.

(** The character a one-letter escape stands for. *)
Definition unescape (e : code_unit) : option code_unit :=
  if e =? 34 then Some 34 else if e =? 92 then Some 92
  else if e =? 47 then Some 47 else if e =? 98 then Some 8
  else if e =? 102 then Some 12 else if e =? 110 then Some 10
  else if e =? 114 then Some 13 else if e =? 116 then Some 9
  else None.

(** The rest of a string literal after its opening quote: the string, and
    the text after the closing quote. *)
Fixpoint parse_chars (s : jsstring) : option (jsstring * jsstring) :=
  match s with
  | [] => None
  | c :: r =>
      if c =? 34 then Some ([], r)
      else if c =? 92 then
        match r with
        | [] => None
        | e :: r1 =>
            if e =? 117 then
              match r1 with
              | h1 :: h2 :: h3 :: h4 :: r2 =>
                  match hex_value h1, hex_value h2, hex_value h3, hex_value h4,
                        parse_chars r2 with
                  | Some a, Some b, Some c', Some d, Some (str, rest) =>
                      Some ((a * 4096 + b * 256 + c' * 16 + d) :: str, rest)
                  | _, _, _, _, _ => None
                  end
              | _ => None
              end
            else
              match unescape e, parse_chars r1 with
              | Some x, Some (str, rest) => Some (x :: str, rest)
              | _, _ => None
              end
        end
      else if c <? 32 then None
      else
        match parse_chars r with
        | Some (str, rest) => Some (c :: str, rest)
        | None => None
        end
  end.

(** [s] without the prefix [p], when it starts with it. *)
Fixpoint strip_prefix (p s : jsstring) : option jsstring :=
  match p, s with
  | [], _ => Some s
  | a :: p', b :: s' => if a =? b then strip_prefix p' s' else None
  | _ :: _, [] => None
  end.

(** CreateDataProperty on a property list: the value of an existing key is
    replaced in place, a new key goes to the end. *)
Fixpoint set_prop (k : jsstring) (v : value) (props : list (jsstring * value))
    : list (jsstring * value) :=
  match props with
  | [] => [(k, v)]
  | (k', v') :: r => if str_eq k k' then (k', v) :: r else (k', v') :: set_prop k v r
  end.

Definition make_object (members : list (jsstring * value)) : value :=
  Object (fold_left (fun acc kv => set_prop (fst kv) (snd kv) acc) members []).

(** A JSON value at the head of [s], and the text after it.  The functions
    take a bound on the nesting still allowed; [JSON_parse] starts them
    with the length of the text. *)
Fixpoint parse_value (fuel : nat) (s : jsstring) : option (value * jsstring) :=
  match fuel with
  | O => None
  | S f =>
      match s with
      | [] => None
      | c :: r =>
          if c =? 34 then
            match parse_chars r with
            | Some (str, rest) => Some (String str, rest)
            | None => None
            end
          else if c =? 91 then
            match skip_ws r with
            | [] => None
            | c1 :: r1 =>
                if c1 =? 93 then Some (Array [], r1)
                else match parse_elements f (c1 :: r1) with
                     | Some (vs, rest) => Some (Array vs, rest)
                     | None => None
                     end
            end
          else if c =? 123 then
            match skip_ws r with
            | [] => None
            | c1 :: r1 =>
                if c1 =? 125 then Some (Object [], r1)
                else match parse_members f (c1 :: r1) with
                     | Some (ms, rest) => Some (make_object ms, rest)
                     | None => None
                     end
            end
          else if is_digit c || (c =? 45) then
            let (tok, rest) := span_number s in
            match StringToNumber tok with
            | Some n => Some (Number n, rest)
            | None => None
            end
          else
            match strip_prefix (lit "null") s, strip_prefix (lit "true") s,
                  strip_prefix (lit "false") s with
            | Some rest, _, _ => Some (Null, rest)
            | _, Some rest, _ => Some (Bool true, rest)
            | _, _, Some rest => Some (Bool false, rest)
            | None, None, None => None
            end
      end
  end
with parse_elements (fuel : nat) (s : jsstring) : option (list value * jsstring) :=
  match fuel with
  | O => None
  | S f =>
      match parse_value f s with
      | None => None
      | Some (v, r) =>
          match skip_ws r with
          | [] => None
          | c :: r1 =>
              if c =? 44 then
                match parse_elements f (skip_ws r1) with
                | Some (vs, rest) => Some (v :: vs, rest)
                | None => None
                end
              else if c =? 93 then Some ([v], r1)
              else None
          end
      end
  end
with parse_members (fuel : nat) (s : jsstring)
    : option (list (jsstring * value) * jsstring) :=
  match fuel with
  | O => None
  | S f =>
      match s with
      | [] => None
      | q :: r0 =>
          if q =? 34 then
            match parse_chars r0 with
            | None => None
            | Some (k, r) =>
                match skip_ws r with
                | [] => None
                | c0 :: r1 =>
                    if c0 =? 58 then
                      match parse_value f (skip_ws r1) with
                      | None => None
                      | Some (v, r2) =>
                          match skip_ws r2 with
                          | [] => None
                          | c :: r3 =>
                              if c =? 44 then
                                match parse_members f (skip_ws r3) with
                                | Some (ms, rest) => Some ((k, v) :: ms, rest)
                                | None => None
                                end
                              else if c =? 125 then Some ([(k, v)], r3)
                              else None
                          end
                      end
                    else None
                end
            end
          else None
      end
  end.

(** [JSON.parse(text)]; [None] stands for a SyntaxError. *)
Definition JSON_parse (text : jsstring) : option value :=
  match parse_value (S (length text)) (skip_ws text) with
  | Some (v, rest) =>
      match skip_ws rest with
      | [] => Some v
      | _ :: _ => None
      end
  | None => None
  end.

(** ** The world: file system, clock, console, response *)

(** A response body: [res.send] of a string or of an object. *)
Inductive body :=
| Text (s : jsstring)
| Json (v : value).

(** What the program does to the outside, in the order it does it. *)
Inductive event :=
| FsMkdir (folder : jsstring)
| FsWriteFile (path data encoding : jsstring)
| ConsoleLog (line : jsstring)
| ConsoleError (line : jsstring)
| Response (status : N) (b : body).

Record world := {
  dirs : gset (list N);
  files : gmap (list N) (list N);
  ticks : nat;
  events : list event
}.

(** A world in which nothing has happened yet. *)
Definition empty_world : world :=
  {| dirs := ∅; files := ∅; ticks := 0; events := [] |}.

(** The platform around the program: the wall clock at each reading, the
    rendering of dates and of stack traces in log lines, [path.join], and
    whether the file system refuses an operation, and with what error. *)
Variable clock : nat -> Date.
Variable toISOString : Date -> jsstring.
Variable stack : error -> jsstring.
Variable path_join : jsstring -> jsstring -> jsstring.
Variable mkdir_error : jsstring -> world -> option error.
Variable writeFile_error : jsstring -> jsstring -> world -> option error.

(** Computations that act on the world and may throw. *)
Definition M (A : Type) : Type := world -> completion A * world.

Definition ret {A} (a : A) : M A := fun w => (Normal a, w).
Definition throw {A} (e : error) : M A := fun w => (Throw e, w).
Definition bind {A B} (m : M A) (f : A -> M B) : M B :=
  fun w => match m w with
           | (Normal a, w') => f a w'
           | (Throw e, w') => (Throw e, w')
           end.
Definition lift {A} (c : completion A) : M A := fun w => (c, w).

(** [try { m } catch (error) { handler }]. *)
Definition try_catch {A} (m : M A) (handler : error -> M A) : M A :=
  fun w => match m w with
           | (Normal a, w') => (Normal a, w')
           | (Throw e, w') => handler e w'
           end.

#[local] Instance M_ret : MRet M := @ret.
#[local] Instance M_bind : MBind M := fun A B f m => bind m f.

(** The world with one more directory, and with a file (re)written. *)
Definition with_dir (folder : jsstring) (w : world) : world :=
  {| dirs := {[ folder ]} ∪ dirs w; files := files w; ticks := ticks w;
     events := events w |}.

Definition with_file (path text : jsstring) (w : world) : world :=
  {| dirs := dirs w; files := <[ path := text ]> (files w); ticks := ticks w;
     events := events w |}.

(** The world after one more reading of the clock. *)
Definition tick (w : world) : world :=
  {| dirs := dirs w; files := files w; ticks := S (ticks w);
     events := events w |}.

(** The world after one more event. *)
Definition record (e : event) (w : world) : world :=
  {| dirs := dirs w; files := files w; ticks := ticks w;
     events := events w ++ [e] |}.

Definition emit (e : event) : M unit := fun w => (Normal tt, record e w).

Definition console_log (line : jsstring) : M unit := emit (ConsoleLog line).
Definition console_error (line : jsstring) : M unit := emit (ConsoleError line).

(** [new Date()]. *)
Definition new_Date : M Date :=
  fun w => (Normal (clock (ticks w)), tick w).

(** [fs.mkdir(folder, {recursive: true})]: creates the directory unless
    the file system refuses; an existing directory is no error.  [dirs]
    follows the directory that is asked for; the parents that the
    recursive option makes on the way are not followed. *)
Definition fs_mkdir (folder : jsstring) : M unit :=
  fun w =>
    let w1 := record (FsMkdir folder) w in
    match mkdir_error folder w with
    | Some e => (Throw e, w1)
    | None => (Normal tt, with_dir folder w1)
    end.

(** [fs.writeFile(path, data, 'utf8')]: [data] becomes the whole contents
    of the file, replacing what a file of that name held.  The call throws
    when [data] is [undefined], before it touches the file system. *)
Definition fs_writeFile (path : jsstring) (data : option jsstring) : M unit :=
  match data with
  | None =>
      throw (TypeError (lit "The data argument must be of type string"))
  | Some text =>
      fun w =>
        let w1 := record (FsWriteFile path text (lit "utf8")) w in
        match writeFile_error path text w with
        | Some e => (Throw e, w1)
        | None => (Normal tt, with_file path text w1)
        end
  end.

(** [path.join(folder, name)] throws unless [name] is a string. *)
Definition path_join_value (folder : jsstring) (name : value) : completion jsstring :=
  match name with
  | String s => Normal (path_join folder s)
  | _ => Throw (TypeError (lit "The path argument must be of type string"))
  end.

(** ** The persister *)

(** [data.fileData?.fileName]. *)
Definition fileName_optional (data : value) : completion value :=
  fileData ← Get data (lit "fileData");
  if is_nullish fileData then Normal Undefined else Get fileData (lit "fileName").

(** [data.fileData.fileName]. *)
Definition fileName_of (data : value) : completion value :=
  fileData ← Get data (lit "fileData"); Get fileData (lit "fileName").

(** The condition of the file-name choice,
<<
  data.fileData?.fileName && typeof data.fileData.fileName === 'string'
    && data.fileData.fileName.trim().length > 0
>> *)
Definition has_fileName (data : value) : completion bool :=
  v1 ← fileName_optional data;
  if ToBoolean v1 then
    v2 ← fileName_of data;
    if str_eq (typeof v2) (lit "string") then
      v3 ← fileName_of data;
      t ← call_trim v3;
      Normal (0 <? N.of_nat (length t))
    else Normal false
  else Normal false.

(** The file name: the override of the payload, or a time stamp. *)
Definition choose_fileName (data : value) : M value :=
  c ← lift (has_fileName data);
  if (c : bool) then lift (fileName_of data)
  else now ← new_Date; ret (String (timestamp_name now)).

(** [src/saveData.ts]:
<<
  try {
    await fs.mkdir(folder, {recursive: true});
    const fileName = ... ;
    const filePath = path.join(folder, fileName);
    await fs.writeFile(filePath, JSON.stringify(data, null, 2), 'utf8');
  } catch (error) {
    console.error(`[SAVE ERROR] Check folder "${folder}" or permissions.`);
    console.error(`[SAVE ERROR] ${(error as Error).message}`);
    throw new Error('Failed to save data');
  }
>> *)
Definition saveData (data : value) (folder : jsstring) : M unit :=
  try_catch
    (fs_mkdir folder;;
     fileName ← choose_fileName data;
     filePath ← lift (path_join_value folder fileName);
     fs_writeFile filePath (JSON_stringify data))
    (fun error =>
       console_error (lit "[SAVE ERROR] Check folder " ++ [34] ++ folder ++
                      [34] ++ lit " or permissions.");;
       console_error (lit "[SAVE ERROR] " ++ message error);;
       throw (Error (lit "Failed to save data"))).

(** ** The request handler *)

(** [log(message)]: a line on the console, stamped with the time. *)
Definition log (msg : jsstring) : M unit :=
  now ← new_Date;
  console_log (lit "[" ++ toISOString now ++ lit "] " ++ msg).

(** [res.send(b)] on a fresh response, whose status is 200, and
    [res.status(code).send(b)]. *)
Definition res_send (b : body) : M unit := emit (Response 200 b).
Definition res_status_send (code : N) (b : body) : M unit := emit (Response code b).

(** [src/index.ts], with the configured folder and the [next] callback as
    arguments:
<<
  try {
    if (!validateData(req.body)) {
      throw new Error('Data is not in the correct format');
    }
    await saveData(req.body, SAVE_FOLDER);
    log(`Completed request and saved to file`);
    res.send('Success');
  } catch (error) {
    console.error(`[PROCESS ERROR] ${(error as Error).stack}`);
    next(error);
  }
>> *)
Definition processRequest (folder : jsstring) (req_body : value)
    (next : error -> M unit) : M unit :=
  try_catch
    (valid ← lift (validateData req_body);
     (if negb (valid : bool)
           then throw (Error (lit "Data is not in the correct format"))
           else ret tt);;
     saveData req_body folder;;
     log (lit "Completed request and saved to file");;
     res_send (Text (lit "Success")))
    (fun error =>
       console_error (lit "[PROCESS ERROR] " ++ stack error);;
       next error).

(** [src/index.ts]:
<<
  console.error(`[ERROR] ${error.message}`);
  if (error.message === 'Data is not in the correct format') {
    res.status(400).send({ error: 'Invalid input data' });
  } else if (error.message === 'Failed to save data') {
    res.status(500).send({ error: 'Failed to save the provided data' });
  } else {
    res.status(500).send({ error: 'Internal Server Error' });
  }
>> *)
Definition errorHandler (error : error) : M unit :=
  console_error (lit "[ERROR] " ++ message error);;
  if str_eq (message error) (lit "Data is not in the correct format") then
    res_status_send 400 (Json (Object [(lit "error", String (lit "Invalid input data"))]))
  else if str_eq (message error) (lit "Failed to save data") then
    res_status_send 500
      (Json (Object [(lit "error", String (lit "Failed to save the provided data"))]))
  else
    res_status_send 500
      (Json (Object [(lit "error", String (lit "Internal Server Error"))])).

(** [app.post('/process', processRequest); app.use(errorHandler)]: an error
    given to [next] goes to the error handler. *)
Definition post_process (folder : jsstring) (req_body : value) : M unit :=
  processRequest folder req_body errorHandler.

(** The two GET routes of [src/index.ts]:
<<
  app.get(ROUTES.HOME, (_req, res) => {
    res.send({message: 'Running!'});
  });
  app.get(ROUTES.HEALTHCHECK, (_req, res) => {
    res.send({status: 'healthy', timestamp: new Date().toISOString()});
  });
>> *)
Definition home : M unit :=
  res_send (Json (Object [(lit "message", String (lit "Running!"))])).

Definition healthcheck : M unit :=
  now ← new_Date;
  res_send (Json (Object [(lit "status", String (lit "healthy"));
                          (lit "timestamp", String (toISOString now))])).

(** The requests that the application has a route for,
<<
  app.get(ROUTES.HOME, ...);          // '/'
  app.get(ROUTES.HEALTHCHECK, ...);   // '/healthcheck'
  app.post(ROUTES.PROCESS, processRequest);   // '/process'
  app.use(errorHandler);
>>
    and the handling of one of them. *)
Inductive request :=
| GetHome
| GetHealthcheck
| PostProcess (req_body : value).

Definition handle (folder : jsstring) (req : request) : M unit :=
  match req with
  | GetHome => home
  | GetHealthcheck => healthcheck
  | PostProcess req_body => post_process folder req_body
  end.

(** ** The earlier persister *)

(** The earlier [saveData], which always names the file by the time:
<<
  try {
    await fs.mkdir(folder, { recursive: true });
    const now = new Date();
    const formattedDate = now.toLocaleDateString('en-GB').replace(/\//g, '-');
    const time = now.toTimeString().split(' ')[0].replace(/:/g, '-');
    const milliseconds = now.getMilliseconds().toString().padStart(3, '0');
    const timestamp = `${formattedDate}_${time}-${milliseconds}`;
    const fileName = `data-${timestamp}.json`;
    const filePath = path.join(folder, fileName);
    await fs.writeFile(filePath, JSON.stringify(data, null, 2), 'utf8');
  } catch (error) {
    console.error(`[SAVE ERROR] Check folder "${folder}" or permissions.`);
    console.error(`[SAVE ERROR] ${(error as Error).message}`);
    throw new Error('Failed to save data');
  }
>> *)
Definition saveData_v1 (data : value) (folder : jsstring) : M unit :=
  try_catch
    (fs_mkdir folder;;
     now ← new_Date;
     let formattedDate := replace_all 47 45 (toLocaleDateString_enGB now) in
     let time := replace_all 58 45 (before_space (toTimeString now)) in
     let milliseconds := padStart 3 48 (decimal (getMilliseconds now)) in
     let timestamp := formattedDate ++ lit "_" ++ time ++ lit "-" ++ milliseconds in
     let fileName := lit "data-" ++ timestamp ++ lit ".json" in
     let filePath := path_join folder fileName in
     fs_writeFile filePath (JSON_stringify data))
    (fun error =>
       console_error (lit "[SAVE ERROR] Check folder " ++ [34] ++ folder ++
                      [34] ++ lit " or permissions.");;
       console_error (lit "[SAVE ERROR] " ++ message error);;
       throw (Error (lit "Failed to save data"))).

(** The responses sent so far. *)
Definition responses (w : world) : list (N * body) :=
  omap (fun e => match e with Response c b => Some (c, b) | _ => None end) (events w).

(** The file-system calls made so far. *)
Definition fs_calls (w : world) : list event :=
  omap (fun e => match e with FsMkdir _ | FsWriteFile _ _ _ => Some e | _ => None end)
       (events w).

(** ** Predicates of the specification *)

(** What the current validator checks in a value, as a predicate. *)
Definition has_url (data : value) : Prop :=
  exists props s, data = Object props /\
    lookup_prop (lit "url") props = String s /\
    exists c, In c s /\ is_white_space c = false.

(** The two lines that [saveData] logs before it reports a failure. *)
Definition save_error_logged (folder : jsstring) (e : error) (w : world) : world :=
  record (ConsoleError (lit "[SAVE ERROR] " ++ message e))
    (record (ConsoleError (lit "[SAVE ERROR] Check folder " ++ [34] ++ folder ++
                           [34] ++ lit " or permissions.")) w).

(** The payloads that name their file: [data.fileData.fileName] is a
    string with a character that is not white space. *)
Definition names_file (data : value) (s : jsstring) : Prop :=
  exists props fd,
    data = Object props /\
    lookup_prop (lit "fileData") props = Object fd /\
    lookup_prop (lit "fileName") fd = String s /\
    exists c, In c s /\ is_white_space c = false.

(** A number literal as JSON.parse takes it up: it starts with a digit or
    a minus sign and is made of number characters. *)
Definition number_token (t : jsstring) : Prop :=
  match t with
  | c :: _ => is_digit c || (c =? 45) = true
  | [] => False
  end /\ forallb is_number_char t = true.

(** A Number that JSON can represent: it is finite, and its literal reads
    back as the same Number (every finite Number but the negative zero). *)
Definition json_number (n : num) : Prop :=
  num_finite n = true /\
  number_token (NumberToString n) /\
  StringToNumber (NumberToString n) = Some n.

(** The JSON-representable values: no [undefined] anywhere, numbers that
    JSON can represent, and objects whose keys are distinct. *)
Inductive json_value : value -> Prop :=
| json_null : json_value Null
| json_bool b : json_value (Bool b)
| json_num n : json_number n -> json_value (Number n)
| json_string s : json_value (String s)
| json_array l : Forall json_value l -> json_value (Array l)
| json_object l :
    NoDup (map fst l) -> Forall (fun kv => json_value (snd kv)) l ->
    json_value (Object l).

(** The number of values in a value, in the way the parser counts them. *)
Fixpoint value_size (v : value) : nat :=
  match v with
  | Array l => S (list_sum (map (fun e => S (value_size e)) l))
  | Object l => S (list_sum (map (fun kv => S (value_size (snd kv))) l))
  | _ => 1
  end.

(** The text JSON.stringify writes for a value inside an array. *)
Definition text_of (indent : jsstring) (v : value) : jsstring :=
  default (lit "null") (SerializeJSONProperty indent v).

(** The text of one property of an object. *)
Definition member_text (indent : jsstring) (kv : list N * value) : jsstring :=
  QuoteJSONString (fst kv) ++ [58; 32] ++ text_of indent (snd kv).

(** An indentation: spaces only. *)
Definition all_spaces (indent : jsstring) : Prop :=
  forallb (N.eqb 32) indent = true.

(** A text that starts with the first character of a value. *)
Definition starts_value (t : jsstring) : Prop :=
  match t with
  | c :: _ => is_json_ws c = false /\ (c =? 93) = false /\ (c =? 125) = false
  | [] => False
  end.

(** A text that does not go on with a number character. *)
Definition ends_number (t : jsstring) : Prop :=
  match t with
  | c :: _ => is_number_char c = false
  | [] => True
  end.

(** Reading the text of [v] gives [v] back, whatever the indentation and
    the text that follows. *)
Definition parses_back (v : value) : Prop :=
  forall indent rest fuel,
    all_spaces indent -> ends_number rest -> (value_size v <= fuel)%nat ->
    parse_value fuel (text_of indent v ++ rest) = Some (v, rest).

(** A computation that sends no response. *)
Definition quiet {A} (m : M A) : Prop :=
  forall w r w', m w = (r, w') -> responses w' = responses w.

(** The body of the 400, of the 500 of a failed save, and of the other 500. *)
Definition invalid_input : body :=
  Json (Object [(lit "error", String (lit "Invalid input data"))]).
Definition save_failed : body :=
  Json (Object [(lit "error", String (lit "Failed to save the provided data"))]).
Definition internal_error : body :=
  Json (Object [(lit "error", String (lit "Internal Server Error"))]).

(** The characters of a synthesized file name: lower-case letters,
    digits, the hyphen, the underscore and the full stop. *)
Definition is_name_char (c : code_unit) : bool :=
  is_digit c || ((97 <=? c) && (c <=? 122)) || (c =? 45) || (c =? 95) || (c =? 46).

(** The fields of a date are those of a calendar date and a time of day
    with a year of four digits. *)
Definition in_calendar (d : Date) : Prop :=
  day d < 100 /\ month d < 100 /\ 1000 <= year d < 10000 /\
  hours d < 100 /\ minutes d < 100 /\ seconds d < 100 /\ milliseconds d < 1000.

(** Two dates with the same local date and time of day. *)
Definition same_local_time (a b : Date) : Prop :=
  day a = day b /\ month a = month b /\ year a = year b /\
  hours a = hours b /\ minutes a = minutes b /\ seconds a = seconds b /\
  milliseconds a = milliseconds b.

(** What [saveData] answers when something went wrong in the world [w]
    because of [cause]. *)
Definition save_failure (folder : jsstring) (cause : error) (w : world)
    : completion unit * world :=
  (Throw (Error (lit "Failed to save data")), save_error_logged folder cause w).

(** A plain file name: one segment of a path, not empty, neither [.] nor
    [..], and without a slash. *)
Definition plain_name (name : jsstring) : bool :=
  negb (is_empty name) && negb (str_eq name (lit ".")) &&
  negb (str_eq name (lit "..")) && forallb (fun c => negb (c =? 47)) name.

(** The directory [folder] holds no file: there is no file at the folder
    followed by a plain file name. *)
Definition dir_empty (folder : jsstring) (w : world) : Prop :=
  forall name, plain_name name = true -> files w !! path_join folder name = None.

(** ** Properties *)

Lemma str_eq_true (a b : jsstring) : str_eq a b = true <-> a = b.
Proof.
  revert b. induction a as [|x a IH]; intros [|y b]; cbn [str_eq];
    try (split; [discriminate | discriminate]); [tauto|].
  rewrite andb_true_iff, N.eqb_eq, IH. split; [intros [-> ->] | intros [= -> ->]]; auto.
Qed.

Lemma str_eq_false (a b : jsstring) : a <> b -> str_eq a b = false.
Proof.
  intros H. destruct (str_eq a b) eqn:E; [|reflexivity].
  apply str_eq_true in E. contradiction.
Qed.

(** Induction over values that reaches the elements of arrays and the
    property values of objects. *)
Lemma value_nested_ind (P : value -> Prop) :
  P Undefined -> P Null -> (forall b, P (Bool b)) -> (forall n, P (Number n)) ->
  (forall s, P (String s)) ->
  (forall l, Forall P l -> P (Array l)) ->
  (forall l, Forall (fun kv => P (snd kv)) l -> P (Object l)) ->
  forall v, P v.
Proof.
  intros HU HN HB HNum HS HA HO.
  fix IH 1. intros [ | | b | n | s | l | l ];
    [exact HU | exact HN | apply HB | apply HNum | apply HS | | ].
  - apply HA. induction l as [|x l IHl]; constructor; [apply IH | exact IHl].
  - apply HO. induction l as [|[k x] l IHl]; constructor; [apply IH | exact IHl].
Qed.

Lemma trimStart_nil_iff (s : jsstring) :
  trimStart s = [] <-> forallb is_white_space s = true.
Proof.
  induction s as [|c r IH]; simpl; [tauto|].
  destruct (is_white_space c); simpl; [exact IH|]. split; discriminate.
Qed.

Lemma trimStart_app_ws (s t : jsstring) :
  forallb is_white_space s = true -> trimStart (s ++ t) = trimStart t.
Proof.
  induction s as [|c r IH]; simpl; [reflexivity|].
  destruct (is_white_space c); simpl; [exact IH | discriminate].
Qed.

Lemma trimStart_keeps_non_ws (s : jsstring) :
  forallb is_white_space s = false ->
  forallb is_white_space (trimStart s) = false.
Proof.
  induction s as [|c r IH]; simpl; [discriminate|].
  destruct (is_white_space c) eqn:E; simpl; [exact IH|].
  intros _. rewrite E. reflexivity.
Qed.

(** A string trims to the empty string exactly when all its code units
    are white space. *)
Lemma trim_nil_iff (s : jsstring) :
  trim s = [] <-> forallb is_white_space s = true.
Proof.
  unfold trim, trimEnd. split.
  - intros H. apply (f_equal (@rev N)) in H. rewrite rev_involutive in H.
    simpl in H. apply trimStart_nil_iff in H.
    rewrite forallb_forall in H.
    destruct (forallb is_white_space s) eqn:E; [reflexivity|].
    apply trimStart_keeps_non_ws in E.
    assert (forallb is_white_space (trimStart s) = true); [|congruence].
    apply forallb_forall. intros c Hc. apply H. apply in_rev.
    rewrite rev_involutive. exact Hc.
  - intros H. rewrite (proj2 (trimStart_nil_iff s) H). reflexivity.
Qed.

Lemma typeof_object_iff (v : value) :
  str_eq (typeof v) (lit "object") = true <->
  v = Null \/ (exists l, v = Array l) \/ (exists l, v = Object l).
Proof.
  destruct v; split; intros H;
    try (vm_compute in H; discriminate);
    try reflexivity; eauto;
    destruct H as [H | [[l H] | [l H]]]; discriminate.
Qed.

Lemma non_ws_content (s : jsstring) :
  (0 <? N.of_nat (length (trim s))) = true <->
  exists c, In c s /\ is_white_space c = false.
Proof.
  pose proof (trim_nil_iff s) as Ht.
  split.
  - intros H. destruct (forallb is_white_space s) eqn:E.
    + rewrite (proj2 Ht eq_refl) in H. discriminate.
    + clear -E. induction s as [|c r IH]; simpl in *; [discriminate|].
      destruct (is_white_space c) eqn:Ec; simpl in E.
      * destruct (IH E) as (d & Hd & Hw). eauto.
      * eauto.
  - intros (c & Hc & Hw). destruct (trim s) eqn:E.
    + assert (Hall : forallb is_white_space s = true) by (apply Ht; reflexivity).
      rewrite forallb_forall in Hall. rewrite (Hall c Hc) in Hw. discriminate.
    + reflexivity.
Qed.

(** C2.  The current validator returns true exactly for the objects that
    carry a property [url] whose value is a string with at least one
    character that is not white space; it accepts
    [{"url": "https://example.com"}] and rejects [null], [{}],
    [{"url": ""}] and [{"url": "   "}]. *)
Theorem validateData_true_iff :
  (forall data : value, validateData data = Normal true <-> has_url data) /\
  validateData (Object [(lit "url", String (lit "https://example.com"))]) = Normal true /\
  validateData Null = Normal false /\
  validateData (Object []) = Normal false /\
  validateData (Object [(lit "url", String (lit ""))]) = Normal false /\
  validateData (Object [(lit "url", String (lit "   "))]) = Normal false.
Proof.
  split; [|repeat split; reflexivity].
  intros data. unfold has_url. split.
  - destruct data as [ | | b | n | s | l | props ]; try (intros H; vm_compute in H; discriminate).
    unfold validateData. simpl.
    change (str_eq (lit "object") (lit "object")) with true. simpl.
    destruct (lookup_prop (lit "url") props) as [ | | b | n | s | l | ps ] eqn:E;
      try (intros H; vm_compute in H; discriminate).
    change (str_eq (typeof (String s)) (lit "string")) with true. simpl.
    intros H. exists props, s. split; [reflexivity|]. split; [exact E|].
    apply non_ws_content. congruence.
  - intros (props & s & -> & Hu & Hc). unfold validateData. simpl.
    change (str_eq (lit "object") (lit "object")) with true. simpl.
    rewrite Hu. change (str_eq (typeof (String s)) (lit "string")) with true.
    simpl. f_equal. apply non_ws_content. exact Hc.
Qed.

(** C7, as the code has it.  The earlier validator returns true for every
    value whose [typeof] is ["object"] and that is not [null], that is for
    every array as well as for every plain object, and false for
    [undefined], [null] and every primitive. *)
Theorem validateData_a_spec (data : value) :
  validateData_a data =
  Normal (match data with Array _ | Object _ => true | _ => false end).
Proof. destruct data; reflexivity. Qed.

(** C8, as the code has it.  Neither validator ever throws: each returns a
    boolean for every input.  Both reject [undefined], [null] and every
    primitive; the current validator also rejects every array and every
    object without a string [url]; the earlier one accepts arrays and
    objects alike. *)
Theorem validators_total (data : value) :
  (exists b, validateData data = Normal b) /\
  (exists b, validateData_a data = Normal b) /\
  match data with
  | Undefined | Null | Bool _ | Number _ | String _ =>
      validateData data = Normal false /\ validateData_a data = Normal false
  | Array _ =>
      validateData data = Normal false /\ validateData_a data = Normal true
  | Object props =>
      validateData_a data = Normal true /\
      ((forall s, lookup_prop (lit "url") props <> String s) ->
       validateData data = Normal false)
  end.
Proof.
  destruct data as [ | | b | n | s | l | props ]; simpl;
    try (repeat split; eauto; fail).
  unfold validateData. simpl.
  change (str_eq (lit "object") (lit "object")) with true. simpl.
  destruct (lookup_prop (lit "url") props) as [ | | b | n | s | l | ps ] eqn:E;
    simpl; repeat split; eauto; try (intros H; exfalso; eapply H; reflexivity).
Qed.

(** *** The persister and the handler *)

Ltac run :=
  cbv [mbind mret M_bind M_ret bind ret throw lift try_catch emit
       console_error console_log res_send res_status_send log new_Date].

Lemma responses_record (e : event) (w : world) :
  responses (record e w) =
  responses w ++ match e with Response c b => [(c, b)] | _ => [] end.
Proof.
  unfold responses, record. cbn [events]. rewrite omap_app.
  destruct e; cbn; rewrite ?app_nil_r; reflexivity.
Qed.

Lemma fs_calls_record (e : event) (w : world) :
  fs_calls (record e w) =
  fs_calls w ++ match e with FsMkdir _ | FsWriteFile _ _ _ => [e] | _ => [] end.
Proof.
  unfold fs_calls, record. cbn [events]. rewrite omap_app.
  destruct e; cbn; rewrite ?app_nil_r; reflexivity.
Qed.

(** Whatever goes wrong inside [saveData] is caught, logged and replaced. *)
Lemma saveData_outcome (data : value) (folder : jsstring) (w : world) :
  (exists w', saveData data folder w = (Normal tt, w')) \/
  (exists e w1, saveData data folder w =
                (Throw (Error (lit "Failed to save data")),
                 save_error_logged folder e w1)).
Proof.
  unfold saveData. cbv [try_catch].
  match goal with
  | |- context [ match ?m with _ => _ end ] => destruct m as [[[]|e] w1]
  end.
  - left. eauto.
  - right. exists e, w1. reflexivity.
Qed.

Lemma saveData_mkdir_fails (data : value) (folder : jsstring) (w : world) (e : error) :
  mkdir_error folder w = Some e ->
  saveData data folder w =
  (Throw (Error (lit "Failed to save data")),
   save_error_logged folder e (record (FsMkdir folder) w)).
Proof.
  intros H. unfold saveData. run. unfold fs_mkdir. rewrite H. reflexivity.
Qed.

(** *** Configuration *)

Lemma digits_of_uint_are_digits (d : Decimal.uint) :
  forallb is_digit (digits_of_uint d) = true.
Proof. induction d; simpl; auto. Qed.

Lemma read_digits_of_uint (d : Decimal.uint) :
  read_digits (digits_of_uint d) = d.
Proof. induction d; simpl; [reflexivity | rewrite IHd; reflexivity ..]. Qed.

Lemma digit_not_white_space (c : N) : is_digit c = true -> is_white_space c = false.
Proof.
  unfold is_digit, is_white_space. intros H.
  apply andb_true_iff in H as [H1 H2].
  apply N.leb_le in H1. apply N.leb_le in H2.
  repeat match goal with
         | |- context [ ?a =? ?b ] =>
             let E := fresh in destruct (N.eqb_spec a b) as [E|E]; [lia|]
         end.
  destruct (N.leb_spec 8192 c); [lia|]. reflexivity.
Qed.

Lemma to_uint_not_nil (n : N) : N.to_uint n <> Decimal.Nil.
Proof.
  destruct n; simpl; [discriminate|]. apply DecimalPos.Unsigned.to_uint_nonnil.
Qed.

(** [parseInt] reads the decimal notation of a natural number back. *)
Lemma parseInt_decimal (n : N) : parseInt (decimal n) = Some (Z.of_N n).
Proof.
  unfold parseInt, decimal.
  pose proof (to_uint_not_nil n) as Hnil.
  pose proof (digits_of_uint_are_digits (N.to_uint n)) as Hd.
  pose proof (DecimalN.Unsigned.of_to n) as Hn.
  pose proof (read_digits_of_uint (N.to_uint n)) as Hr.
  destruct (digits_of_uint (N.to_uint n)) as [|c r] eqn:E.
  - destruct (N.to_uint n); try discriminate; congruence.
  - cbn [forallb] in Hd. apply andb_true_iff in Hd as [Hc _].
    assert (Ht : trimStart (c :: r) = c :: r).
    { cbn [trimStart]. rewrite (digit_not_white_space c Hc). reflexivity. }
    rewrite Ht. cbv zeta.
    unfold is_digit in Hc. apply andb_true_iff in Hc as [H1 _].
    apply N.leb_le in H1.
    assert ((c =? 45) = false) as -> by (apply N.eqb_neq; lia).
    assert ((c =? 43) = false) as -> by (apply N.eqb_neq; lia).
    cbn [orb]. rewrite Hr.
    destruct (N.to_uint n) eqn:E2; try congruence; rewrite Hn; f_equal; lia.
Qed.

(** C9.  [getPort] returns the number that [parseInt] reads exactly when
    that number lies in 1024..65535, and throws [Invalid PORT_NUMBER: s]
    for every other string [s]: when no number is read and when the number
    is out of range.  On the decimal notation of an integer [n] it returns
    [n] when [n] is in range and throws otherwise.  With [PORT_NUMBER]
    unset, [PORT] is 3000. *)
Theorem getPort_spec :
  (forall s p, getPort s = Normal p <->
               parseInt s = Some p /\ (1024 <= p <= 65535)%Z) /\
  (forall s, (forall p, getPort s <> Normal p) ->
             getPort s = Throw (Error (lit "Invalid PORT_NUMBER: " ++ s))) /\
  (forall n : N,
      getPort (decimal n) =
      if (1024 <=? n) && (n <=? 65535) then Normal (Z.of_N n)
      else Throw (Error (lit "Invalid PORT_NUMBER: " ++ decimal n))) /\
  (forall env : environment,
      PORT (delete (lit "PORT_NUMBER") env) = Normal 3000%Z).
Proof.
  repeat split.
  - unfold getPort in H. destruct (parseInt s) as [q|]; [|discriminate].
    destruct ((q <? 1024)%Z || (q >? 65535)%Z); congruence.
  - unfold getPort in H. destruct (parseInt s) as [q|]; [|discriminate].
    destruct (Z.ltb_spec q 1024); simpl in H; [discriminate|].
    assert (q = p) as <- by (destruct (q >? 65535)%Z; congruence). lia.
  - unfold getPort in H. destruct (parseInt s) as [q|]; [|discriminate].
    destruct (Z.ltb_spec q 1024); simpl in H; [discriminate|].
    destruct (q >? 65535)%Z eqn:E; [discriminate|].
    assert (q = p) as <- by congruence. lia.
  - intros [Hp [H1 H2]]. unfold getPort. rewrite Hp.
    destruct (Z.ltb_spec p 1024); [lia|].
    assert ((p >? 65535)%Z = false) as -> by lia. reflexivity.
  - intros s H. unfold getPort in *. destruct (parseInt s) as [q|]; [|reflexivity].
    destruct ((q <? 1024)%Z || (q >? 65535)%Z); [reflexivity|].
    exfalso. apply (H q). reflexivity.
  - intros n. unfold getPort. rewrite parseInt_decimal.
    destruct (N.leb_spec 1024 n), (N.leb_spec n 65535); simpl;
      destruct (Z.ltb_spec (Z.of_N n) 1024); simpl; try lia; try reflexivity;
      destruct (Z.of_N n >? 65535)%Z eqn:E; try reflexivity; lia.
  - intros env. unfold PORT, getEnvVar. rewrite lookup_delete_eq. reflexivity.
Qed.

(** The cases of the test suite, and a string that [parseInt] reads in
    part: white space and a sign before the digits, and any text after
    them, do not make a port invalid. *)
Example getPort_examples :
  getPort (lit "3000") = Normal 3000%Z /\
  getPort (lit "abc") = Throw (Error (lit "Invalid PORT_NUMBER: abc")) /\
  getPort (lit "99999") = Throw (Error (lit "Invalid PORT_NUMBER: 99999")) /\
  getPort (lit " +8080/tcp") = Normal 8080%Z.
Proof. repeat split. Qed.

(** C10.  A variable that is set to the empty string is treated as unset:
    [getEnvVar] returns the default when there is one and throws
    [Environment variable <key> is not set] when there is none; so with a
    blank [DATA_LOCATION] the folder is ./data, and with a blank
    [PORT_NUMBER] the port is 3000. *)
Theorem getEnvVar_blank (env : environment) :
  (forall key d, getEnvVar (<[ key := [] ]> env) key (Some d) = Normal d) /\
  (forall key, getEnvVar (<[ key := [] ]> env) key None =
     Throw (Error (lit "Environment variable " ++ key ++ lit " is not set"))) /\
  (forall key d, getEnvVar (<[ key := [] ]> env) key d =
                 getEnvVar (delete key env) key d) /\
  SAVE_FOLDER (<[ lit "DATA_LOCATION" := [] ]> env) = Normal (lit "./data") /\
  PORT (<[ lit "PORT_NUMBER" := [] ]> env) = Normal 3000%Z.
Proof.
  unfold SAVE_FOLDER, PORT, getEnvVar.
  repeat split; intros; rewrite ?lookup_insert_eq, ?lookup_delete_eq; reflexivity.
Qed.

(** *** JSON: strings *)

Lemma in_N_range (k : nat) (from n : N) :
  from <= n < from + N.of_nat k -> In n (N_range k from).
Proof.
  revert from. induction k as [|k IH]; intros from H; [lia|].
  cbn [N_range]. destruct (N.eq_dec from n) as [->|Hne]; [left; reflexivity|].
  right. apply IH. lia.
Qed.

Lemma hex_digit_table :
  forallb (fun n => match hex_value (hex_digit n) with
                    | Some m => m =? n
                    | None => false
                    end) (N_range 16 0) = true.
Proof. vm_compute. reflexivity. Qed.

Lemma hex_value_hex_digit (n : N) : n < 16 -> hex_value (hex_digit n) = Some n.
Proof.
  intros H. pose proof hex_digit_table as T. rewrite forallb_forall in T.
  specialize (T n (in_N_range 16 0 n ltac:(lia))).
  destruct (hex_value (hex_digit n)) as [m|]; [|discriminate].
  apply N.eqb_eq in T. congruence.
Qed.

Lemma hex_digits_value (c : N) :
  c < 65536 ->
  (c / 4096 mod 16) * 4096 + (c / 256 mod 16) * 256 + (c / 16 mod 16) * 16 + c mod 16 = c.
Proof. intros H. zify. Z.to_euclidean_division_equations. lia. Qed.

(** An escape [\uXXXX] written for a 16-bit code unit reads back as it. *)
Lemma parse_chars_UnicodeEscape (c : N) (t : jsstring) :
  c < 65536 ->
  parse_chars (UnicodeEscape c ++ t) =
  match parse_chars t with
  | Some (str, rest) => Some (c :: str, rest)
  | None => None
  end.
Proof.
  intros H. unfold UnicodeEscape.
  cbn [app parse_chars].
  change (92 =? 34) with false. change (92 =? 92) with true.
  change (117 =? 117) with true. cbv iota.
  rewrite !hex_value_hex_digit by (apply N.mod_lt; discriminate).
  rewrite (hex_digits_value c H). reflexivity.
Qed.

Lemma parse_chars_raw (c : N) (t : jsstring) :
  (c =? 34) = false -> (c =? 92) = false -> (c <? 32) = false ->
  parse_chars (c :: t) =
  match parse_chars t with
  | Some (str, rest) => Some (c :: str, rest)
  | None => None
  end.
Proof. intros H1 H2 H3. cbn [parse_chars]. rewrite H1, H2, H3. reflexivity. Qed.

Lemma parse_chars_quote_unit (c : N) (t : jsstring) :
  is_lead_surrogate c = false -> is_trail_surrogate c = false ->
  parse_chars (quote_unit c ++ t) =
  match parse_chars t with
  | Some (str, rest) => Some (c :: str, rest)
  | None => None
  end.
Proof.
  intros _ _. unfold quote_unit.
  repeat match goal with
         | |- context [ if ?a =? ?b then _ else _ ] =>
             destruct (N.eqb_spec a b) as [->|?]; [reflexivity|]
         end.
  destruct (N.ltb_spec c 32) as [Hlt|Hge].
  - apply parse_chars_UnicodeEscape. lia.
  - apply parse_chars_raw.
    + apply N.eqb_neq. assumption.
    + apply N.eqb_neq. assumption.
    + apply N.ltb_ge. assumption.
Qed.

Lemma surrogate_raw (c : N) :
  is_lead_surrogate c = true \/ is_trail_surrogate c = true ->
  (c =? 34) = false /\ (c =? 92) = false /\ (c <? 32) = false /\ c < 65536.
Proof.
  unfold is_lead_surrogate, is_trail_surrogate.
  intros [H|H]; apply andb_true_iff in H as [H1 H2];
    apply N.leb_le in H1; apply N.leb_le in H2;
    (repeat split; [apply N.eqb_neq | apply N.eqb_neq | apply N.ltb_ge | ]; lia).
Qed.

(** Reading the characters that QuoteJSONString wrote gives the string. *)
Lemma parse_chars_quote_chars (s rest : jsstring) :
  parse_chars (quote_chars s ++ 34 :: rest) = Some (s, rest).
Proof.
  remember (length s) as n eqn:Hn.
  revert s Hn. induction n as [n IH] using lt_wf_ind. intros s Hn.
  destruct s as [|c r]; [reflexivity|].
  cbn [quote_chars].
  destruct (is_lead_surrogate c) eqn:Hl.
  - destruct (surrogate_raw c (or_introl Hl)) as (H1 & H2 & H3 & H4).
    destruct r as [|d r'].
    + rewrite parse_chars_UnicodeEscape by assumption. reflexivity.
    + destruct (is_trail_surrogate d) eqn:Hd.
      * destruct (surrogate_raw d (or_intror Hd)) as (G1 & G2 & G3 & G4).
        cbn [app]. rewrite parse_chars_raw by assumption.
        rewrite parse_chars_raw by assumption.
        rewrite (IH (length r')); [reflexivity | subst n; simpl; lia | reflexivity].
      * rewrite <- app_assoc. rewrite parse_chars_UnicodeEscape by assumption.
        rewrite (IH (length (d :: r'))); [reflexivity | subst n; simpl; lia | reflexivity].
  - destruct (is_trail_surrogate c) eqn:Ht.
    + destruct (surrogate_raw c (or_intror Ht)) as (H1 & H2 & H3 & H4).
      rewrite <- app_assoc. rewrite parse_chars_UnicodeEscape by assumption.
      rewrite (IH (length r)); [reflexivity | subst n; simpl; lia | reflexivity].
    + rewrite <- app_assoc. rewrite parse_chars_quote_unit by assumption.
      rewrite (IH (length r)); [reflexivity | subst n; simpl; lia | reflexivity].
Qed.

(** *** JSON: white space, numbers, literals *)

Lemma skip_ws_spaces (indent t : jsstring) :
  all_spaces indent -> skip_ws (indent ++ t) = skip_ws t.
Proof.
  unfold all_spaces. induction indent as [|c r IH]; [reflexivity|].
  cbn [forallb app skip_ws]. intros H. apply andb_true_iff in H as [Hc Hr].
  apply N.eqb_eq in Hc. subst c. cbn. apply IH, Hr.
Qed.

Lemma skip_ws_start (t : jsstring) : starts_value t -> skip_ws t = t.
Proof. destruct t as [|c r]; [intros []|]. intros (H & _). cbn. rewrite H. reflexivity. Qed.

Lemma skip_ws_line (indent t : jsstring) :
  all_spaces indent -> starts_value t -> skip_ws (10 :: indent ++ t) = t.
Proof.
  intros Hi Ht. change (skip_ws (10 :: indent ++ t)) with (skip_ws (indent ++ t)).
  rewrite skip_ws_spaces by assumption. apply skip_ws_start, Ht.
Qed.

Lemma all_spaces_gap (indent : jsstring) : all_spaces indent -> all_spaces (indent ++ gap).
Proof.
  unfold all_spaces. intros H. rewrite forallb_app, H. reflexivity.
Qed.

Lemma span_number_token (tok rest : jsstring) :
  forallb is_number_char tok = true -> ends_number rest ->
  span_number (tok ++ rest) = (tok, rest).
Proof.
  intros Ht Hr. induction tok as [|c r IH].
  - destruct rest as [|c r]; [reflexivity|]. cbn in *. rewrite Hr. reflexivity.
  - cbn [forallb] in Ht. apply andb_true_iff in Ht as [Hc Ht].
    cbn [app span_number]. rewrite Hc, (IH Ht). reflexivity.
Qed.

Lemma parse_value_string (f : nat) (r : jsstring) :
  parse_value (S f) (34 :: r) =
  match parse_chars r with
  | Some (str, rest) => Some (String str, rest)
  | None => None
  end.
Proof. reflexivity. Qed.

Lemma parse_value_array (f : nat) (r : jsstring) :
  parse_value (S f) (91 :: r) =
  match skip_ws r with
  | [] => None
  | c1 :: r1 =>
      if c1 =? 93 then Some (Array [], r1)
      else match parse_elements f (c1 :: r1) with
           | Some (vs, rest) => Some (Array vs, rest)
           | None => None
           end
  end.
Proof. reflexivity. Qed.

Lemma parse_value_object (f : nat) (r : jsstring) :
  parse_value (S f) (123 :: r) =
  match skip_ws r with
  | [] => None
  | c1 :: r1 =>
      if c1 =? 125 then Some (Object [], r1)
      else match parse_members f (c1 :: r1) with
           | Some (ms, rest) => Some (make_object ms, rest)
           | None => None
           end
  end.
Proof. reflexivity. Qed.

Lemma parse_value_number (f : nat) (c : N) (r : jsstring) :
  is_digit c || (c =? 45) = true ->
  parse_value (S f) (c :: r) =
  let (tok, rest) := span_number (c :: r) in
  match StringToNumber tok with
  | Some n => Some (Number n, rest)
  | None => None
  end.
Proof.
  intros H. cbn [parse_value]. rewrite H.
  assert (c <> 34 /\ c <> 91 /\ c <> 123) as (H1 & H2 & H3).
  { unfold is_digit in H. apply orb_true_iff in H as [H|H].
    - apply andb_true_iff in H as [Ha Hb]. apply N.leb_le in Ha, Hb. lia.
    - apply N.eqb_eq in H. lia. }
  apply N.eqb_neq in H1, H2, H3. rewrite H1, H2, H3. reflexivity.
Qed.

Lemma parse_elements_step (f : nat) (s : jsstring) :
  parse_elements (S f) s =
  match parse_value f s with
  | None => None
  | Some (v, r) =>
      match skip_ws r with
      | [] => None
      | c :: r1 =>
          if c =? 44 then
            match parse_elements f (skip_ws r1) with
            | Some (vs, rest) => Some (v :: vs, rest)
            | None => None
            end
          else if c =? 93 then Some ([v], r1)
          else None
      end
  end.
Proof. reflexivity. Qed.

Lemma parse_members_step (f : nat) (r0 : jsstring) :
  parse_members (S f) (34 :: r0) =
  match parse_chars r0 with
  | None => None
  | Some (k, r) =>
      match skip_ws r with
      | [] => None
      | c0 :: r1 =>
          if c0 =? 58 then
            match parse_value f (skip_ws r1) with
            | None => None
            | Some (v, r2) =>
                match skip_ws r2 with
                | [] => None
                | c :: r3 =>
                    if c =? 44 then
                      match parse_members f (skip_ws r3) with
                      | Some (ms, rest) => Some ((k, v) :: ms, rest)
                      | None => None
                      end
                    else if c =? 125 then Some ([(k, v)], r3)
                    else None
                end
            end
          else None
      end
  end.
Proof. reflexivity. Qed.

(** *** JSON: the text of a representable value *)

Lemma ser_json_value (indent : jsstring) (v : value) :
  json_value v -> SerializeJSONProperty indent v = Some (text_of indent v).
Proof. intros H. destruct H; try destruct b; reflexivity. Qed.

Lemma text_of_array (indent : jsstring) (l : list value) :
  text_of indent (Array l) = wrap 91 93 indent (map (text_of (indent ++ gap)) l).
Proof. reflexivity. Qed.

Lemma text_of_object (indent : jsstring) (l : list (list N * value)) :
  Forall (fun kv => json_value (snd kv)) l ->
  text_of indent (Object l) = wrap 123 125 indent (map (member_text (indent ++ gap)) l).
Proof.
  intros H. unfold text_of. cbn [SerializeJSONProperty].
  match goal with
  | |- default _ (Some (wrap _ _ _ (omap ?f l))) = _ =>
      assert (E : omap f l = map (member_text (indent ++ gap)) l)
  end.
  { induction H as [|[k e] l He Hl IH]; [reflexivity|].
    cbn [snd] in He. cbn [map]. rewrite <- IH. cbn [omap list_omap].
    rewrite (ser_json_value _ _ He). reflexivity. }
  rewrite E. reflexivity.
Qed.

Lemma wrap_cons (o c : N) (indent : jsstring) (p : jsstring) (ps : list jsstring)
    (rest : jsstring) :
  wrap o c indent (p :: ps) ++ rest =
  o :: 10 :: (indent ++ gap) ++
    (join ([44; 10] ++ indent ++ gap) (p :: ps) ++ 10 :: indent ++ c :: rest).
Proof.
  unfold wrap. cbn [app]. repeat (rewrite <- !app_assoc; cbn [app]). reflexivity.
Qed.

Lemma join_cons2 (sep p q : jsstring) (ps : list jsstring) (t : jsstring) :
  join sep (p :: q :: ps) ++ t = p ++ sep ++ (join sep (q :: ps) ++ t).
Proof. cbn [join]. rewrite <- !app_assoc. reflexivity. Qed.

Lemma starts_text_of (indent : jsstring) (v : value) (rest : jsstring) :
  json_value v -> starts_value (text_of indent v ++ rest).
Proof.
  intros H. destruct H as [ | b | n (Hf & (Hh & Hc) & Hr) | s | l Hl | l Hn Hl ].
  - vm_compute. auto.
  - destruct b; vm_compute; auto.
  - unfold text_of. cbn [SerializeJSONProperty]. rewrite Hf.
    change (starts_value (NumberToString n ++ rest)).
    destruct (NumberToString n) as [|c r]; [destruct Hh|].
    cbn [app starts_value]. unfold is_digit in Hh. unfold is_json_ws.
    apply orb_true_iff in Hh as [Hh|Hh].
    + apply andb_true_iff in Hh as [Ha Hb]. apply N.leb_le in Ha, Hb.
      repeat match goal with
             | |- context [ ?a =? ?b ] => destruct (N.eqb_spec a b); [lia|]
             end. repeat split.
    + apply N.eqb_eq in Hh. subst c. vm_compute. auto.
  - unfold text_of, QuoteJSONString. cbn [SerializeJSONProperty default app].
    vm_compute. auto.
  - rewrite text_of_array. destruct l; unfold wrap; cbn [map app starts_value];
      vm_compute; auto.
  - rewrite text_of_object by assumption.
    destruct l; unfold wrap; cbn [map app starts_value]; vm_compute; auto.
Qed.

(** *** JSON: arrays and objects *)

Lemma skip_ws_line_char (indent : jsstring) (c : N) (t : jsstring) :
  all_spaces indent -> is_json_ws c = false ->
  skip_ws (10 :: indent ++ c :: t) = c :: t.
Proof.
  intros Hi Hc. change (skip_ws (10 :: indent ++ c :: t)) with (skip_ws (indent ++ c :: t)).
  rewrite skip_ws_spaces by assumption. cbn. rewrite Hc. reflexivity.
Qed.

Lemma starts_join (sep indent : jsstring) (v : value) (ps : list jsstring)
    (t : jsstring) :
  json_value v -> starts_value (join sep (text_of indent v :: ps) ++ t).
Proof.
  intros H. destruct ps as [|q ps].
  - cbn [join]. apply starts_text_of, H.
  - rewrite join_cons2. apply starts_text_of, H.
Qed.

Lemma starts_member (sep indent : jsstring) (kv : list N * value)
    (ps : list jsstring) (t : jsstring) :
  starts_value (join sep (member_text indent kv :: ps) ++ t).
Proof.
  destruct ps as [|q ps]; [cbn [join] | rewrite join_cons2];
    unfold member_text, QuoteJSONString; cbn [app starts_value]; vm_compute; auto.
Qed.

Lemma parse_elements_texts (indent rest : jsstring) (l : list value) :
  all_spaces indent -> l <> [] -> Forall json_value l -> Forall parses_back l ->
  forall fuel, (list_sum (map (fun e => S (value_size e)) l) <= fuel)%nat ->
  parse_elements fuel
    (join ([44; 10] ++ indent ++ gap) (map (text_of (indent ++ gap)) l) ++
     10 :: indent ++ 93 :: rest) = Some (l, rest).
Proof.
  intros Hi Hne Hj Hb. induction l as [|e l IH]; [contradiction|].
  inversion Hj as [|? ? Hje Hjl]; subst. inversion Hb as [|? ? Hbe Hbl]; subst.
  intros [|f] Hf; [cbn in Hf; lia|]. cbn [map list_sum fold_right] in Hf.
  rewrite parse_elements_step. destruct l as [|e2 l'].
  - cbn [map join]. rewrite Hbe; [| apply all_spaces_gap, Hi | reflexivity | cbn in Hf; lia].
    rewrite skip_ws_line_char by (assumption || reflexivity). reflexivity.
  - cbn [map]. rewrite join_cons2. change (map (text_of (indent ++ gap)) l')
      with (map (text_of (indent ++ gap)) l').
    rewrite Hbe; [| apply all_spaces_gap, Hi | reflexivity | lia].
    cbn [app]. change (skip_ws (44 :: ?x)) with (44 :: x).
    change (44 =? 44) with true. cbv iota.
    rewrite skip_ws_line;
      [| apply all_spaces_gap, Hi | apply starts_join; inversion Hjl; assumption].
    change (join ([44; 10] ++ indent ++ gap)
              (text_of (indent ++ gap) e2 :: map (text_of (indent ++ gap)) l'))
      with (join ([44; 10] ++ indent ++ gap) (map (text_of (indent ++ gap)) (e2 :: l'))).
    rewrite IH; [reflexivity | discriminate | assumption | assumption | ].
    cbn [map list_sum fold_right] in *. lia.
Qed.

Lemma parse_members_texts (indent rest : jsstring) (l : list (list N * value)) :
  all_spaces indent -> l <> [] ->
  Forall (fun kv => json_value (snd kv)) l ->
  Forall (fun kv => parses_back (snd kv)) l ->
  forall fuel, (list_sum (map (fun kv => S (value_size (snd kv))) l) <= fuel)%nat ->
  parse_members fuel
    (join ([44; 10] ++ indent ++ gap) (map (member_text (indent ++ gap)) l) ++
     10 :: indent ++ 125 :: rest) = Some (l, rest).
Proof.
  intros Hi Hne Hj Hb. induction l as [|[k e] l IH]; [contradiction|].
  inversion Hj as [|? ? Hje Hjl]; subst. inversion Hb as [|? ? Hbe Hbl]; subst.
  cbn [snd] in Hje, Hbe.
  intros [|f] Hf; [cbn in Hf; lia|]. cbn [map list_sum fold_right snd] in Hf.
  assert (Hm : forall t,
             member_text (indent ++ gap) (k, e) ++ t =
             34 :: quote_chars k ++ 34 :: 58 :: 32 :: text_of (indent ++ gap) e ++ t).
  { intros t. unfold member_text, QuoteJSONString. cbn [fst snd app].
    repeat (rewrite <- !app_assoc; cbn [app]). reflexivity. }
  destruct l as [|kv2 l'].
  - cbn [map join]. rewrite Hm, parse_members_step, parse_chars_quote_chars.
    change (skip_ws (58 :: ?x)) with (58 :: x).
    change (58 =? 58) with true. cbv iota.
    change (skip_ws (32 :: ?x)) with (skip_ws x).
    rewrite skip_ws_start by (apply starts_text_of, Hje).
    rewrite Hbe; [| apply all_spaces_gap, Hi | reflexivity | lia].
    rewrite skip_ws_line_char by (assumption || reflexivity). reflexivity.
  - cbn [map]. rewrite join_cons2, Hm, parse_members_step, parse_chars_quote_chars.
    change (skip_ws (58 :: ?x)) with (58 :: x).
    change (58 =? 58) with true. cbv iota.
    change (skip_ws (32 :: ?x)) with (skip_ws x).
    rewrite skip_ws_start by (apply starts_text_of, Hje).
    rewrite Hbe; [| apply all_spaces_gap, Hi | reflexivity | lia].
    cbn [app]. change (skip_ws (44 :: ?x)) with (44 :: x).
    change (44 =? 44) with true. cbv iota.
    rewrite skip_ws_line; [| apply all_spaces_gap, Hi | apply starts_member].
    change (join ([44; 10] ++ indent ++ gap)
              (member_text (indent ++ gap) kv2 :: map (member_text (indent ++ gap)) l'))
      with (join ([44; 10] ++ indent ++ gap)
              (map (member_text (indent ++ gap)) (kv2 :: l'))).
    rewrite IH; [reflexivity | discriminate | assumption | assumption | ].
    cbn [map list_sum fold_right] in *. lia.
Qed.

Lemma set_prop_fresh (k : list N) (v : value) (acc : list (list N * value)) :
  ~ In k (map fst acc) -> set_prop k v acc = acc ++ [(k, v)].
Proof.
  induction acc as [|[k' v'] acc IH]; [reflexivity|].
  cbn [map fst In set_prop]. intros H.
  rewrite str_eq_false by (intros ->; apply H; left; reflexivity).
  rewrite IH by tauto. reflexivity.
Qed.

(** Building an object from members with distinct keys keeps them all, in
    their order. *)
Lemma make_object_distinct (l : list (list N * value)) :
  NoDup (map fst l) -> make_object l = Object l.
Proof.
  unfold make_object. intros H. f_equal.
  change l with ([] ++ l) at 2. change (map fst l) with (map fst ([] ++ l)) in H.
  generalize dependent (@nil (list N * value)).
  induction l as [|[k v] l IH]; intros acc H; [rewrite app_nil_r; reflexivity|].
  cbn [fold_left fst snd]. rewrite map_app in H. cbn [map fst] in H.
  apply NoDup_app in H as (Ha & Hd & Hl).
  rewrite set_prop_fresh.
  - rewrite IH; [rewrite <- app_assoc; reflexivity|].
    rewrite !map_app. cbn [map fst]. rewrite <- app_assoc. cbn [app].
    apply NoDup_app. repeat split; [exact Ha | exact Hd | exact Hl].
  - intros Hin. apply list_elem_of_In in Hin. apply (Hd k Hin). left.
Qed.

(** *** JSON: the round trip *)

Lemma parses_back_json (v : value) : json_value v -> parses_back v.
Proof.
  induction v as [ | | b | n | s | l IH | l IH ] using value_nested_ind;
    intros Hj indent rest [|f] Hi Hr Hf; try (cbn in Hf; lia).
  - inversion Hj.
  - reflexivity.
  - destruct b; reflexivity.
  - inversion Hj as [ | | ? (Hfin & (Hh & Hc) & Hrt) | | | ]; subst.
    unfold text_of. cbn [SerializeJSONProperty]. rewrite Hfin.
    change (parse_value (S f) (NumberToString n ++ rest) = Some (Number n, rest)).
    destruct (NumberToString n) as [|c r] eqn:E; [destruct Hh|].
    cbn [app]. rewrite parse_value_number by exact Hh.
    change (c :: r ++ rest) with ((c :: r) ++ rest).
    rewrite span_number_token by assumption. rewrite Hrt. reflexivity.
  - change (text_of indent (String s) ++ rest)
      with (34 :: (quote_chars s ++ [34]) ++ rest).
    rewrite <- app_assoc. cbn [app].
    rewrite parse_value_string, parse_chars_quote_chars. reflexivity.
  - inversion Hj as [ | | | | ? Hl | ]; subst.
    assert (Hb : Forall parses_back l).
    { clear -IH Hl. induction Hl; inversion IH; subst; constructor; auto. }
    rewrite text_of_array. destruct l as [|e l].
    + reflexivity.
    + cbn [map]. rewrite wrap_cons, parse_value_array.
      rewrite skip_ws_line;
        [| apply all_spaces_gap, Hi | apply starts_join; inversion Hl; assumption].
      pose proof (starts_join ([44; 10] ++ indent ++ gap) (indent ++ gap) e
                    (map (text_of (indent ++ gap)) l)
                    (10 :: indent ++ 93 :: rest)) as Hs.
      change (text_of (indent ++ gap) e :: map (text_of (indent ++ gap)) l)
        with (map (text_of (indent ++ gap)) (e :: l)) in *.
      destruct (join _ _ ++ _) as [|c1 r1] eqn:E;
        [destruct Hs; inversion Hl; assumption|].
      destruct Hs as (_ & H93 & _); [inversion Hl; assumption|].
      rewrite H93, <- E.
      rewrite parse_elements_texts;
        [reflexivity | assumption | discriminate | assumption | assumption | ].
      cbn [value_size] in Hf. lia.
  - inversion Hj as [ | | | | | ? Hn Hl ]; subst.
    assert (Hb : Forall (fun kv => parses_back (snd kv)) l).
    { clear -IH Hl. induction Hl; inversion IH; subst; constructor; auto. }
    rewrite text_of_object by assumption. destruct l as [|kv l].
    + reflexivity.
    + cbn [map]. rewrite wrap_cons, parse_value_object.
      rewrite skip_ws_line; [| apply all_spaces_gap, Hi | apply starts_member].
      pose proof (starts_member ([44; 10] ++ indent ++ gap) (indent ++ gap) kv
                    (map (member_text (indent ++ gap)) l)
                    (10 :: indent ++ 125 :: rest)) as Hs.
      change (member_text (indent ++ gap) kv :: map (member_text (indent ++ gap)) l)
        with (map (member_text (indent ++ gap)) (kv :: l)) in *.
      destruct (join _ _ ++ _) as [|c1 r1] eqn:E; [destruct Hs|].
      destruct Hs as (_ & _ & H125).
      rewrite H125, <- E.
      rewrite parse_members_texts;
        [| assumption | discriminate | assumption | assumption | cbn [value_size] in Hf; lia].
      rewrite make_object_distinct by assumption. reflexivity.
Qed.

Lemma length_join (sep : jsstring) (parts : list jsstring) :
  (list_sum (map length parts) <= length (join sep parts))%nat.
Proof.
  induction parts as [|p [|q ps] IH]; cbn [map list_sum fold_right join] in *;
    [lia | lia |]. rewrite !length_app. lia.
Qed.

Lemma length_join_sep (sep : jsstring) (parts : list jsstring) :
  (1 <= length sep)%nat ->
  (list_sum (map length parts) + length parts <= S (length (join sep parts)))%nat.
Proof.
  intros Hs.
  induction parts as [|p [|q ps] IH]; cbn [map list_sum fold_right join length] in *;
    [lia | lia |]. rewrite !length_app. lia.
Qed.

Lemma length_wrap (o c : N) (indent : jsstring) (parts : list jsstring) :
  (S (list_sum (map length parts) + length parts) <= length (wrap o c indent parts))%nat.
Proof.
  destruct parts as [|p ps]; [cbn; lia|].
  unfold wrap. rewrite !length_app. cbn [length].
  pose proof (length_join_sep ([44; 10] ++ indent ++ gap) (p :: ps)) as H.
  rewrite length_app in H. cbn [length] in *. lia.
Qed.

(** The text of a representable value has at least as many characters as
    the value has parts, so the length of the text is enough fuel. *)
Lemma size_le_length (v : value) :
  json_value v -> forall indent, (value_size v <= length (text_of indent v))%nat.
Proof.
  induction v as [ | | b | n | s | l IH | l IH ] using value_nested_ind;
    intros Hj indent.
  - inversion Hj.
  - vm_compute. lia.
  - destruct b; vm_compute; lia.
  - inversion Hj as [ | | ? (Hfin & (Hh & Hc) & Hrt) | | | ]; subst.
    unfold text_of. cbn [SerializeJSONProperty value_size]. rewrite Hfin.
    change (1 <= length (NumberToString n))%nat.
    destruct (NumberToString n); [destruct Hh | cbn; lia].
  - cbn. lia.
  - inversion Hj as [ | | | | ? Hl | ]; subst.
    rewrite text_of_array. cbn [value_size].
    pose proof (length_wrap 91 93 indent (map (text_of (indent ++ gap)) l)) as Hw.
    rewrite length_map in Hw.
    assert (list_sum (map (fun e => S (value_size e)) l) <=
            list_sum (map length (map (text_of (indent ++ gap)) l)) + length l)%nat;
      [|lia].
    clear Hw Hj. induction Hl as [|e l He Hl IHl]; [cbn; lia|].
    inversion IH as [|? ? IHe IHr]; subst.
    specialize (IHl IHr). specialize (IHe He (indent ++ gap)).
    unfold list_sum in *. cbn [map fold_right length]. lia.
  - inversion Hj as [ | | | | | ? Hn Hl ]; subst.
    rewrite text_of_object by assumption. cbn [value_size].
    pose proof (length_wrap 123 125 indent (map (member_text (indent ++ gap)) l)) as Hw.
    rewrite length_map in Hw.
    assert (list_sum (map (fun kv => S (value_size (snd kv))) l) <=
            list_sum (map length (map (member_text (indent ++ gap)) l)) + length l)%nat;
      [|lia].
    clear Hw Hj Hn. induction Hl as [|kv l He Hl IHl]; [cbn; lia|].
    inversion IH as [|? ? IHe IHr]; subst.
    specialize (IHl IHr). specialize (IHe He (indent ++ gap)).
    unfold list_sum in *. cbn [map fold_right length].
    unfold member_text at 1. rewrite !length_app. lia.
Qed.

(** The round trip of JSON: what [JSON.stringify(v, null, 2)] writes for a
    representable value, [JSON.parse] reads back as that value. *)
Lemma JSON_round_trip (v : value) :
  json_value v ->
  exists text, JSON_stringify v = Some text /\ JSON_parse text = Some v.
Proof.
  intros Hj. exists (text_of [] v). split; [apply ser_json_value, Hj|].
  unfold JSON_parse.
  pose proof (starts_text_of [] v [] Hj) as Hs. rewrite app_nil_r in Hs.
  rewrite skip_ws_start by exact Hs.
  pose proof (parses_back_json v Hj [] [] (S (length (text_of [] v)))) as Hp.
  rewrite app_nil_r in Hp. rewrite Hp; [reflexivity | reflexivity | exact I | ].
  pose proof (size_le_length v Hj []). lia.
Qed.

(** *** JSON: the text is well formed *)

Lemma well_formed_app (a b : jsstring) :
  well_formed a = true -> well_formed b = true -> well_formed (a ++ b) = true.
Proof.
  remember (length a) as n eqn:Hn. revert a Hn.
  induction n as [n IH] using lt_wf_ind. intros a Hn Ha Hb.
  destruct a as [|c r]; [exact Hb|]. cbn [app well_formed] in *.
  destruct (is_lead_surrogate c).
  - destruct r as [|d r']; [discriminate|]. cbn [app].
    apply andb_true_iff in Ha as [Hd Hr]. rewrite Hd. cbn [andb].
    apply (IH (length r')); [subst n; cbn; lia | reflexivity | exact Hr | exact Hb].
  - apply andb_true_iff in Ha as [Hc Hr]. rewrite Hc. cbn [andb].
    apply (IH (length r)); [subst n; cbn; lia | reflexivity | exact Hr | exact Hb].
Qed.

Lemma well_formed_ascii (s : jsstring) :
  forallb (fun c => c <? 128) s = true -> well_formed s = true.
Proof.
  induction s as [|c r IH]; [reflexivity|].
  cbn [forallb well_formed]. intros H. apply andb_true_iff in H as [Hc Hr].
  apply N.ltb_lt in Hc. unfold is_lead_surrogate, is_trail_surrogate.
  destruct (N.leb_spec 55296 c); [lia|]. destruct (N.leb_spec 56320 c); [lia|].
  cbn. apply IH, Hr.
Qed.

Lemma hex_digit_ascii (n : N) : n < 16 -> (hex_digit n <? 128) = true.
Proof. intros H. unfold hex_digit. apply N.ltb_lt. destruct (n <? 10); lia. Qed.

Lemma well_formed_UnicodeEscape (c : N) : well_formed (UnicodeEscape c) = true.
Proof.
  apply well_formed_ascii. unfold UnicodeEscape. cbn [forallb].
  rewrite !hex_digit_ascii by (apply N.mod_lt; discriminate). reflexivity.
Qed.

Lemma well_formed_quote_unit (c : N) :
  is_lead_surrogate c = false -> is_trail_surrogate c = false ->
  well_formed (quote_unit c) = true.
Proof.
  intros Hl Ht. unfold quote_unit.
  repeat match goal with
         | |- context [ if ?a =? ?b then _ else _ ] =>
             destruct (a =? b); [reflexivity|]
         end.
  destruct (c <? 32); [apply well_formed_UnicodeEscape|].
  cbn [well_formed]. rewrite Hl, Ht. reflexivity.
Qed.

Lemma well_formed_quote_chars (s : jsstring) : well_formed (quote_chars s) = true.
Proof.
  remember (length s) as n eqn:Hn. revert s Hn.
  induction n as [n IH] using lt_wf_ind. intros s Hn.
  destruct s as [|c r]; [reflexivity|]. cbn [quote_chars].
  destruct (is_lead_surrogate c) eqn:Hl.
  - destruct r as [|d r']; [apply well_formed_UnicodeEscape|].
    destruct (is_trail_surrogate d) eqn:Hd.
    + cbn [well_formed]. rewrite Hl, Hd. cbn [andb].
      apply (IH (length r')); [subst n; cbn; lia | reflexivity].
    + apply well_formed_app; [apply well_formed_UnicodeEscape|].
      apply (IH (length (d :: r'))); [subst n; cbn; lia | reflexivity].
  - destruct (is_trail_surrogate c) eqn:Ht.
    + apply well_formed_app; [apply well_formed_UnicodeEscape|].
      apply (IH (length r)); [subst n; cbn; lia | reflexivity].
    + apply well_formed_app; [apply well_formed_quote_unit; assumption|].
      apply (IH (length r)); [subst n; cbn; lia | reflexivity].
Qed.

Lemma well_formed_QuoteJSONString (s : jsstring) :
  well_formed (QuoteJSONString s) = true.
Proof.
  unfold QuoteJSONString. apply well_formed_app; [reflexivity|].
  apply well_formed_app; [apply well_formed_quote_chars | reflexivity].
Qed.

Lemma well_formed_spaces (indent : jsstring) :
  all_spaces indent -> well_formed indent = true.
Proof.
  intros H. apply well_formed_ascii. unfold all_spaces in H.
  rewrite forallb_forall in *. intros c Hc. specialize (H c Hc).
  apply N.eqb_eq in H. subst c. reflexivity.
Qed.

Lemma well_formed_join (sep : jsstring) (parts : list jsstring) :
  well_formed sep = true -> Forall (fun p => well_formed p = true) parts ->
  well_formed (join sep parts) = true.
Proof.
  intros Hs Hp. induction Hp as [|p ps Hp Hps IH]; [reflexivity|].
  destruct ps as [|q ps]; [exact Hp|].
  change (join sep (p :: q :: ps)) with (p ++ sep ++ join sep (q :: ps)).
  repeat apply well_formed_app; assumption.
Qed.

Lemma well_formed_wrap (o c : N) (indent : jsstring) (parts : list jsstring) :
  (o <? 128) = true -> (c <? 128) = true -> all_spaces indent ->
  Forall (fun p => well_formed p = true) parts ->
  well_formed (wrap o c indent parts) = true.
Proof.
  intros Ho Hc Hi Hp. unfold wrap. destruct parts as [|p ps].
  - apply well_formed_ascii. cbn [forallb]. rewrite Ho, Hc. reflexivity.
  - assert (Hg : well_formed (indent ++ gap) = true)
      by (apply well_formed_spaces, all_spaces_gap, Hi).
    repeat apply well_formed_app;
      try (apply well_formed_ascii; cbn [forallb]; rewrite ?Ho, ?Hc; reflexivity);
      try assumption; try (apply well_formed_spaces, Hi).
    apply well_formed_join; [|assumption].
    apply well_formed_app; [reflexivity | assumption].
Qed.

Lemma number_char_ascii (c : N) : is_number_char c = true -> (c <? 128) = true.
Proof.
  unfold is_number_char, is_digit. intros H. apply N.ltb_lt.
  repeat (apply orb_true_iff in H as [H|H]);
    try (apply N.eqb_eq in H; lia).
  apply andb_true_iff in H as [_ H]. apply N.leb_le in H. lia.
Qed.

(** The text written for a representable value has no lone surrogate. *)
Lemma well_formed_text_of (v : value) :
  json_value v -> forall indent, all_spaces indent ->
  well_formed (text_of indent v) = true.
Proof.
  induction v as [ | | b | n | s | l IH | l IH ] using value_nested_ind;
    intros Hj indent Hi.
  - inversion Hj.
  - reflexivity.
  - destruct b; reflexivity.
  - inversion Hj as [ | | ? (Hfin & (Hh & Hc) & Hrt) | | | ]; subst.
    unfold text_of. cbn [SerializeJSONProperty]. rewrite Hfin.
    change (well_formed (NumberToString n) = true).
    apply well_formed_ascii. rewrite forallb_forall in *.
    intros c Hin. apply number_char_ascii, Hc, Hin.
  - apply well_formed_QuoteJSONString.
  - inversion Hj as [ | | | | ? Hl | ]; subst.
    rewrite text_of_array. apply well_formed_wrap; try reflexivity; [assumption|].
    clear Hj. induction Hl as [|e l He Hl IHl]; [constructor|].
    inversion IH as [|? ? IHe IHr]; subst. constructor.
    + apply IHe; [assumption | apply all_spaces_gap, Hi].
    + apply IHl, IHr.
  - inversion Hj as [ | | | | | ? Hn Hl ]; subst.
    rewrite text_of_object by assumption.
    apply well_formed_wrap; try reflexivity; [assumption|].
    clear Hj Hn. induction Hl as [|kv l He Hl IHl]; [constructor|].
    inversion IH as [|? ? IHe IHr]; subst. constructor.
    + unfold member_text. apply well_formed_app; [apply well_formed_QuoteJSONString|].
      apply well_formed_app; [reflexivity|].
      apply IHe; [assumption | apply all_spaces_gap, Hi].
    + apply IHl, IHr.
Qed.

(** *** The file name *)

Lemma has_fileName_true (data : value) :
  has_fileName data = Normal true ->
  exists s, names_file data s /\ fileName_of data = Normal (String s).
Proof.
  unfold has_fileName, fileName_optional, fileName_of, names_file.
  destruct data as [ | | b | n | s | l | props ]; try (intros H; vm_compute in H; discriminate).
  cbn [Get mbind completion_bind].
  destruct (lookup_prop (lit "fileData") props) as [ | | b | n | s | l | fd ] eqn:Efd;
    try (intros H; vm_compute in H; discriminate).
  cbn [is_nullish Get].
  destruct (lookup_prop (lit "fileName") fd) as [ | | b | n | s | l | ps ] eqn:Efn;
    cbn [mbind completion_bind ToBoolean];
    [ discriminate | discriminate
    | destruct b; intros H; vm_compute in H; discriminate
    | destruct (num_truthy n); intros H; vm_compute in H; discriminate
    | intros H | intros H; vm_compute in H; discriminate
    | intros H; vm_compute in H; discriminate ].
  destruct (negb (is_empty s)); [|discriminate].
  change (str_eq (typeof (String s)) (lit "string")) with true in H.
  cbn [call_trim mbind completion_bind] in H. exists s. split; [|reflexivity].
  exists props, fd. repeat split; try assumption.
  apply non_ws_content. congruence.
Qed.

Lemma names_file_has_fileName (data : value) (s : jsstring) :
  names_file data s ->
  has_fileName data = Normal true /\ fileName_of data = Normal (String s).
Proof.
  intros (props & fd & -> & Efd & Efn & Hc).
  unfold has_fileName, fileName_optional, fileName_of.
  cbn [Get mbind completion_bind]. rewrite Efd. cbn [is_nullish Get]. rewrite Efn.
  split; [|reflexivity]. cbn [mbind completion_bind ToBoolean].
  destruct s as [|c r]; [destruct Hc as (c & [] & _)|].
  cbn [is_empty negb].
  change (str_eq (typeof (String (c :: r))) (lit "string")) with true.
  cbn [call_trim mbind completion_bind]. f_equal. apply non_ws_content, Hc.
Qed.

Lemma has_fileName_throws (data : value) (e : error) :
  has_fileName data = Throw e -> data = Undefined \/ data = Null.
Proof.
  unfold has_fileName, fileName_optional, fileName_of.
  destruct data as [ | | b | n | s | l | props ]; auto;
    try (intros H; vm_compute in H; discriminate).
  cbn [Get mbind completion_bind].
  destruct (lookup_prop (lit "fileData") props) as [ | | b | n | s | l | fd ] eqn:Efd;
    try (intros H; vm_compute in H; discriminate).
  cbn [is_nullish Get].
  destruct (lookup_prop (lit "fileName") fd) as [ | | b | n | s | l | ps ] eqn:Efn;
    cbn [mbind completion_bind ToBoolean];
    [ discriminate | discriminate
    | destruct b; intros H; vm_compute in H; discriminate
    | destruct (num_truthy n); intros H; vm_compute in H; discriminate
    | intros H | intros H; vm_compute in H; discriminate
    | intros H; vm_compute in H; discriminate ].
  destruct (negb (is_empty s)); [|discriminate].
  change (str_eq (typeof (String s)) (lit "string")) with true in H.
  cbn [call_trim mbind completion_bind] in H. discriminate.
Qed.

(** The file name that [saveData] chooses: the override when the payload
    names its file, without a reading of the clock; else the time stamp of
    the next reading of the clock. *)
Lemma choose_fileName_spec (data : value) (w : world) :
  (forall s, names_file data s -> choose_fileName data w = (Normal (String s), w)) /\
  (has_fileName data = Normal false ->
   choose_fileName data w =
   (Normal (String (timestamp_name (clock (ticks w)))), tick w)).
Proof.
  split.
  - intros s H. apply names_file_has_fileName in H as [H1 H2].
    unfold choose_fileName. run. rewrite H1, H2. reflexivity.
  - intros H. unfold choose_fileName. run. rewrite H. reflexivity.
Qed.

Lemma choose_fileName_world (data : value) (w w2 : world) (r : completion value) :
  choose_fileName data w = (r, w2) ->
  dirs w2 = dirs w /\ files w2 = files w /\ events w2 = events w /\
  ((exists s, r = Normal (String s)) \/ (exists e, r = Throw e)).
Proof.
  unfold choose_fileName. run.
  destruct (has_fileName data) as [[|]|e] eqn:E.
  - apply has_fileName_true in E as (s & _ & E). rewrite E.
    intros [= <- <-]. eauto 10.
  - intros [= <- <-]. cbn. eauto 10.
  - intros [= <- <-]. eauto 10.
Qed.

(** *** The persister *)

(** [saveData] once the directory is there, the name is chosen and the
    payload is serialized: the outcome is that of the write. *)
Lemma saveData_run (data : value) (folder : jsstring) (w w2 : world)
    (name text : jsstring) :
  mkdir_error folder w = None ->
  choose_fileName data (with_dir folder (record (FsMkdir folder) w)) =
    (Normal (String name), w2) ->
  JSON_stringify data = Some text ->
  saveData data folder w =
  match writeFile_error (path_join folder name) text w2 with
  | Some e =>
      (Throw (Error (lit "Failed to save data")),
       save_error_logged folder e
         (record (FsWriteFile (path_join folder name) text (lit "utf8")) w2))
  | None =>
      (Normal tt,
       with_file (path_join folder name) text
         (record (FsWriteFile (path_join folder name) text (lit "utf8")) w2))
  end.
Proof.
  intros Hm Hc Hs. unfold saveData. run. unfold fs_mkdir. rewrite Hm, Hc.
  cbn [path_join_value]. rewrite Hs. unfold fs_writeFile.
  destruct (writeFile_error (path_join folder name) text w2); reflexivity.
Qed.

(** A successful [saveData] went through all its steps. *)
Lemma saveData_success_inv (data : value) (folder : jsstring) (w w' : world) :
  saveData data folder w = (Normal tt, w') ->
  exists name text w2,
    mkdir_error folder w = None /\
    choose_fileName data (with_dir folder (record (FsMkdir folder) w)) =
      (Normal (String name), w2) /\
    JSON_stringify data = Some text /\
    writeFile_error (path_join folder name) text w2 = None /\
    w' = with_file (path_join folder name) text
           (record (FsWriteFile (path_join folder name) text (lit "utf8")) w2).
Proof.
  intros H.
  destruct (mkdir_error folder w) as [e|] eqn:Hm.
  { rewrite (saveData_mkdir_fails data folder w e Hm) in H. discriminate. }
  destruct (choose_fileName data (with_dir folder (record (FsMkdir folder) w)))
    as [r w2] eqn:Hc.
  destruct (choose_fileName_world _ _ _ _ Hc) as (_ & _ & _ & [[name ->] | [e ->]]).
  - destruct (JSON_stringify data) as [text|] eqn:Hs.
    + rewrite (saveData_run data folder w w2 name text Hm Hc Hs) in H.
      destruct (writeFile_error (path_join folder name) text w2) eqn:Hw;
        [discriminate|]. injection H as <-. exists name, text, w2. auto.
    + exfalso. revert H. unfold saveData. run. unfold fs_mkdir.
      rewrite Hm, Hc. cbn [path_join_value]. rewrite Hs. discriminate.
  - exfalso. revert H. unfold saveData. run. unfold fs_mkdir.
    rewrite Hm, Hc. discriminate.
Qed.

(** C5.  Every failure of [saveData] is reported as the one error
    [Failed to save data], after the two [SAVE ERROR] lines that name the
    folder and the cause; the reported error does not depend on the cause.
    When the directory cannot be created no write is attempted: the only
    file-system call is the [mkdir], and no file is changed.  When the
    write is refused the same error is reported. *)
Theorem saveData_failure_opaque (data : value) (folder : jsstring) (w : world) :
  (forall e w', saveData data folder w = (Throw e, w') ->
     e = Error (lit "Failed to save data") /\
     exists cause w1, w' = save_error_logged folder cause w1) /\
  (forall cause, mkdir_error folder w = Some cause ->
     exists w',
       saveData data folder w = (Throw (Error (lit "Failed to save data")), w') /\
       w' = save_error_logged folder cause (record (FsMkdir folder) w) /\
       fs_calls w' = fs_calls w ++ [FsMkdir folder] /\
       files w' = files w /\ dirs w' = dirs w) /\
  (forall cause name text w2,
     mkdir_error folder w = None ->
     choose_fileName data (with_dir folder (record (FsMkdir folder) w)) =
       (Normal (String name), w2) ->
     JSON_stringify data = Some text ->
     writeFile_error (path_join folder name) text w2 = Some cause ->
     saveData data folder w =
     (Throw (Error (lit "Failed to save data")),
      save_error_logged folder cause
        (record (FsWriteFile (path_join folder name) text (lit "utf8")) w2))).
Proof.
  repeat split.
  - destruct (saveData_outcome data folder w) as [[w1 E] | (c & w1 & E)];
      rewrite E in H; congruence.
  - destruct (saveData_outcome data folder w) as [[w1 E] | (c & w1 & E)];
      rewrite E in H; [discriminate|]. exists c, w1. congruence.
  - intros cause Hm. eexists. split; [apply saveData_mkdir_fails, Hm|].
    split; [reflexivity|]. unfold save_error_logged.
    rewrite !fs_calls_record, !app_nil_r. auto.
  - intros cause name text w2 Hm Hc Hs Hw.
    rewrite (saveData_run data folder w w2 name text Hm Hc Hs), Hw. reflexivity.
Qed.

(** *** The request handler *)

Lemma quiet_bind {A B} (m : M A) (f : A -> M B) :
  quiet m -> (forall a, quiet (f a)) -> quiet (m ≫= f).
Proof.
  intros Hm Hf w r w'. run. destruct (m w) as [[a|e] w1] eqn:E.
  - intros H. rewrite (Hf a w1 r w' H). apply (Hm w _ _ E).
  - intros [= <- <-]. apply (Hm w _ _ E).
Qed.

Lemma quiet_try_catch {A} (m : M A) (h : error -> M A) :
  quiet m -> (forall e, quiet (h e)) -> quiet (try_catch m h).
Proof.
  intros Hm Hh w r w'. run. destruct (m w) as [[a|e] w1] eqn:E.
  - intros [= <- <-]. apply (Hm w _ _ E).
  - intros H. rewrite (Hh e w1 r w' H). apply (Hm w _ _ E).
Qed.

Lemma quiet_lift {A} (c : completion A) : quiet (lift c).
Proof. intros w r w' [= <- <-]. reflexivity. Qed.

Lemma quiet_throw {A} (e : error) : quiet (@throw A e).
Proof. intros w r w' [= <- <-]. reflexivity. Qed.

Lemma quiet_console_error (line : jsstring) : quiet (console_error line).
Proof. intros w r w' [= <- <-]. rewrite responses_record. apply app_nil_r. Qed.

Lemma quiet_new_Date : quiet new_Date.
Proof. intros w r w' [= <- <-]. reflexivity. Qed.

Lemma quiet_fs_mkdir (folder : jsstring) : quiet (fs_mkdir folder).
Proof.
  intros w r w'. unfold fs_mkdir. destruct (mkdir_error folder w);
    intros [= <- <-]; [|change (responses (with_dir folder ?x)) with (responses x)];
    rewrite responses_record; apply app_nil_r.
Qed.

Lemma quiet_fs_writeFile (path : jsstring) (data : option jsstring) :
  quiet (fs_writeFile path data).
Proof.
  destruct data as [text|]; [|apply quiet_throw].
  intros w r w'. unfold fs_writeFile. destruct (writeFile_error path text w);
    intros [= <- <-]; [|change (responses (with_file path text ?x)) with (responses x)];
    rewrite responses_record; apply app_nil_r.
Qed.

Lemma quiet_choose_fileName (data : value) : quiet (choose_fileName data).
Proof.
  intros w r w' H. apply choose_fileName_world in H as (_ & _ & H & _).
  unfold responses. rewrite H. reflexivity.
Qed.

(** [saveData] sends no response. *)
Lemma quiet_saveData (data : value) (folder : jsstring) : quiet (saveData data folder).
Proof.
  unfold saveData. apply quiet_try_catch.
  - apply quiet_bind; [apply quiet_fs_mkdir | intros _].
    apply quiet_bind; [apply quiet_choose_fileName | intros name].
    apply quiet_bind; [apply quiet_lift | intros path].
    apply quiet_fs_writeFile.
  - intros e. apply quiet_bind; [apply quiet_console_error | intros _].
    apply quiet_bind; [apply quiet_console_error | intros _].
    apply quiet_throw.
Qed.

(** [processRequest] by the outcome of the validator and of the save. *)
Lemma processRequest_run (folder : jsstring) (req_body : value)
    (next : error -> M unit) (w : world) :
  processRequest folder req_body next w =
  match validateData req_body with
  | Normal true =>
      match saveData req_body folder w with
      | (Normal _, w1) =>
          (Normal tt,
           record (Response 200 (Text (lit "Success")))
             (record (ConsoleLog (lit "[" ++ toISOString (clock (ticks w1)) ++
                                  lit "] " ++ lit "Completed request and saved to file"))
                (tick w1)))
      | (Throw e, w1) =>
          next e (record (ConsoleError (lit "[PROCESS ERROR] " ++ stack e)) w1)
      end
  | Normal false =>
      next (Error (lit "Data is not in the correct format"))
        (record (ConsoleError
                   (lit "[PROCESS ERROR] " ++
                    stack (Error (lit "Data is not in the correct format")))) w)
  | Throw e => next e (record (ConsoleError (lit "[PROCESS ERROR] " ++ stack e)) w)
  end.
Proof.
  unfold processRequest. run.
  destruct (validateData req_body) as [[|]|e]; cbn [negb]; try reflexivity.
  destruct (saveData req_body folder w) as [[[]|e] w1]; reflexivity.
Qed.

Lemma errorHandler_run (e : error) (w : world) :
  errorHandler e w =
  (Normal tt,
   record (Response
             (if str_eq (message e) (lit "Data is not in the correct format")
              then 400 else 500)
             (if str_eq (message e) (lit "Data is not in the correct format")
              then invalid_input
              else if str_eq (message e) (lit "Failed to save data")
                   then save_failed else internal_error))
     (record (ConsoleError (lit "[ERROR] " ++ message e)) w)).
Proof.
  unfold errorHandler. run.
  destruct (str_eq (message e) (lit "Data is not in the correct format"));
    [reflexivity|].
  destruct (str_eq (message e) (lit "Failed to save data")); reflexivity.
Qed.

(** C4.  A body that the validator rejects makes the handler raise
    [Data is not in the correct format] and hand it to [next] after one
    [PROCESS ERROR] line, and nothing else: [saveData] is not called, so
    the request made no file-system call, created no directory and wrote
    no file; the answer is the 400. *)
Theorem rejected_body_not_saved (folder : jsstring) (req_body : value)
    (next : error -> M unit) (w : world) :
  validateData req_body = Normal false ->
  processRequest folder req_body next w =
    next (Error (lit "Data is not in the correct format"))
      (record (ConsoleError
                 (lit "[PROCESS ERROR] " ++
                  stack (Error (lit "Data is not in the correct format")))) w) /\
  let w' := snd (post_process folder req_body w) in
  fs_calls w' = fs_calls w /\ dirs w' = dirs w /\ files w' = files w /\
  responses w' = responses w ++ [(400, invalid_input)].
Proof.
  intros Hv. split; [rewrite processRequest_run, Hv; reflexivity|].
  unfold post_process. rewrite processRequest_run, Hv, errorHandler_run.
  cbn [snd message].
  change (str_eq (lit "Data is not in the correct format")
                 (lit "Data is not in the correct format")) with true.
  rewrite !fs_calls_record, !responses_record, !app_nil_r. auto.
Qed.

(** C1.  Every request to POST /process gets exactly one response:
    200 [Success] when the body is valid and the save succeeds;
    400 [Invalid input data] when the validator rejects the body;
    500 [Failed to save the provided data] when the save fails, which it
    does with the error [Failed to save data] only; and the error handler
    answers every other error with 500 [Internal Server Error]. *)
Theorem post_process_outcome (folder : jsstring) (req_body : value) (w : world) :
  let w' := snd (post_process folder req_body w) in
  (validateData req_body = Normal true ->
   (forall w1, saveData req_body folder w = (Normal tt, w1) ->
               responses w' = responses w ++ [(200, Text (lit "Success"))]) /\
   (forall e w1, saveData req_body folder w = (Throw e, w1) ->
                 e = Error (lit "Failed to save data") /\
                 responses w' = responses w ++ [(500, save_failed)])) /\
  (validateData req_body = Normal false ->
   responses w' = responses w ++ [(400, invalid_input)]) /\
  (forall e w0,
     message e <> lit "Data is not in the correct format" ->
     message e <> lit "Failed to save data" ->
     responses (snd (errorHandler e w0)) = responses w0 ++ [(500, internal_error)]) /\
  (exists answer, responses w' = responses w ++ [answer]).
Proof.
  cbv zeta. unfold post_process. rewrite processRequest_run.
  assert (Hsave : forall r w1, saveData req_body folder w = (r, w1) ->
                               responses w1 = responses w)
    by (intros r w1; apply quiet_saveData).
  assert (Hfail : forall e w1, saveData req_body folder w = (Throw e, w1) ->
                               e = Error (lit "Failed to save data")).
  { intros e w1 E.
    destruct (saveData_outcome req_body folder w) as [[w2 E2] | (c & w2 & E2)];
      congruence. }
  repeat split.
  - intros w1 E. rewrite H, E. cbn [snd].
    rewrite !responses_record, app_nil_r.
    change (responses (tick w1)) with (responses w1).
    rewrite (Hsave _ _ E). reflexivity.
  - apply (Hfail _ _ H0).
  - rewrite H, H0. pose proof (Hfail _ _ H0) as ->. rewrite errorHandler_run.
    cbn [snd message]. rewrite !responses_record, !app_nil_r.
    rewrite (Hsave _ _ H0). reflexivity.
  - intros Hv. rewrite Hv, errorHandler_run. cbn [snd message].
    rewrite !responses_record, !app_nil_r. reflexivity.
  - intros e w0 H1 H2. rewrite errorHandler_run. cbn [snd].
    rewrite !str_eq_false by assumption.
    rewrite !responses_record, !app_nil_r. reflexivity.
  - destruct (validateData req_body) as [[|]|e].
    + destruct (saveData req_body folder w) as [[[]|e] w1] eqn:E.
      * eexists. cbn [snd]. rewrite !responses_record, app_nil_r.
        change (responses (tick w1)) with (responses w1).
        rewrite (Hsave _ _ eq_refl). reflexivity.
      * eexists. rewrite errorHandler_run. cbn [snd].
        rewrite !responses_record, !app_nil_r, (Hsave _ _ eq_refl). reflexivity.
    + eexists. rewrite errorHandler_run. cbn [snd].
      rewrite !responses_record, !app_nil_r. reflexivity.
    + eexists. rewrite errorHandler_run. cbn [snd].
      rewrite !responses_record, !app_nil_r. reflexivity.
Qed.

(** *** The synthesized file name *)

Lemma forallb_repeat {A} (f : A -> bool) (x : A) (n : nat) :
  f x = true -> forallb f (repeat x n) = true.
Proof. intros H. induction n; cbn; [reflexivity | rewrite H; assumption]. Qed.

Lemma padStart_digits (n : nat) (k : N) :
  forallb is_digit (padStart n 48 (decimal k)) = true.
Proof.
  unfold padStart, decimal. rewrite forallb_app, forallb_repeat by reflexivity.
  apply digits_of_uint_are_digits.
Qed.

Lemma replace_all_digits (c by_ : N) (s : jsstring) :
  is_digit c = false -> forallb is_digit s = true -> replace_all c by_ s = s.
Proof.
  intros Hc. unfold replace_all. induction s as [|x r IH]; [reflexivity|].
  cbn [forallb map]. intros H. apply andb_true_iff in H as [Hx Hr].
  rewrite (IH Hr). destruct (N.eqb_spec x c) as [->|]; [congruence | reflexivity].
Qed.

Lemma replace_all_app (c by_ : N) (s t : jsstring) :
  replace_all c by_ (s ++ t) = replace_all c by_ s ++ replace_all c by_ t.
Proof. apply map_app. Qed.

Lemma before_space_digits (s t : jsstring) :
  forallb is_digit s = true -> before_space (s ++ t) = s ++ before_space t.
Proof.
  induction s as [|x r IH]; [reflexivity|].
  cbn [forallb app before_space]. intros H. apply andb_true_iff in H as [Hx Hr].
  rewrite (IH Hr). destruct (N.eqb_spec x 32) as [->|]; [discriminate | reflexivity].
Qed.

(** The synthesized name, piece by piece: the day and the month on two
    digits, the year in full, the time of day, and the milliseconds on
    three digits, with hyphens between the numbers. *)
Lemma timestamp_name_format (now : Date) :
  timestamp_name now =
  lit "data-" ++ two_digits (day now) ++ lit "-" ++ two_digits (month now) ++
  lit "-" ++ decimal (year now) ++ lit "_" ++ two_digits (hours now) ++
  lit "-" ++ two_digits (minutes now) ++ lit "-" ++ two_digits (seconds now) ++
  lit "-" ++ padStart 3 48 (decimal (milliseconds now)) ++ lit ".json".
Proof.
  unfold timestamp_name, toLocaleDateString_enGB, toTimeString, getMilliseconds,
    two_digits.
  rewrite !replace_all_app.
  change (replace_all 47 45 (lit "/")) with (lit "-").
  rewrite (replace_all_digits 47 45 (padStart 2 48 (decimal (day now))))
    by (reflexivity || apply padStart_digits).
  rewrite (replace_all_digits 47 45 (padStart 2 48 (decimal (month now))))
    by (reflexivity || apply padStart_digits).
  rewrite (replace_all_digits 47 45 (decimal (year now)))
    by (reflexivity || apply digits_of_uint_are_digits).
  rewrite before_space_digits by apply padStart_digits.
  change (lit ":" ++ ?x) with (58 :: x). cbn [before_space].
  change (58 =? 32) with false. cbv iota.
  rewrite before_space_digits by apply padStart_digits.
  change (lit ":" ++ ?x) with (58 :: x). cbn [before_space].
  change (58 =? 32) with false. cbv iota.
  rewrite before_space_digits by apply padStart_digits.
  change (lit " " ++ ?x) with (32 :: x). cbn [before_space].
  change (32 =? 32) with true. cbv iota. rewrite app_nil_r.
  change (replace_all 58 45 (?a ++ 58 :: ?b ++ 58 :: ?c))
    with (replace_all 58 45 (a ++ [58] ++ b ++ [58] ++ c)).
  rewrite !replace_all_app.
  change (replace_all 58 45 [58]) with (lit "-").
  rewrite (replace_all_digits 58 45 (padStart 2 48 (decimal (hours now))))
    by (reflexivity || apply padStart_digits).
  rewrite (replace_all_digits 58 45 (padStart 2 48 (decimal (minutes now))))
    by (reflexivity || apply padStart_digits).
  rewrite (replace_all_digits 58 45 (padStart 2 48 (decimal (seconds now))))
    by (reflexivity || apply padStart_digits).
  rewrite <- !app_assoc. reflexivity.
Qed.

Lemma two_digits_table :
  forallb (fun n => (length (two_digits n) =? 2)%nat) (N_range 100 0) = true.
Proof. vm_compute. reflexivity. Qed.

Lemma three_digits_table :
  forallb (fun n => (length (padStart 3 48 (decimal n)) =? 3)%nat) (N_range 1000 0) = true.
Proof. vm_compute. reflexivity. Qed.

Lemma four_digits_table :
  forallb (fun n => (length (decimal n) =? 4)%nat) (N_range (N.to_nat 9000) 1000) = true.
Proof. vm_compute. reflexivity. Qed.

(** The lengths of the numbers in the name: two digits for what is below
    100, three for the milliseconds, and four for a year of four digits. *)
Lemma timestamp_digits (n : N) :
  (n < 100 -> length (two_digits n) = 2%nat) /\
  (n < 1000 -> length (padStart 3 48 (decimal n)) = 3%nat) /\
  (1000 <= n < 10000 -> length (decimal n) = 4%nat).
Proof.
  pose proof two_digits_table as H2. pose proof three_digits_table as H3.
  pose proof four_digits_table as H4. rewrite forallb_forall in H2, H3, H4.
  repeat split; intros H; apply Nat.eqb_eq;
    [apply H2 | apply H3 | apply H4]; apply in_N_range; lia.
Qed.

(** At [example_now] the date is printed with the year in full. *)
Lemma timestamp_name_example :
  toLocaleDateString_enGB example_now = lit "03/11/2026" /\
  timestamp_name example_now = lit "data-03-11-2026_14-05-09-007.json".
Proof. split; reflexivity. Qed.

(** [saveData] succeeds on an object that JSON can represent whenever the
    file system refuses nothing. *)
Lemma saveData_succeeds (props : list (list N * value)) (folder : jsstring) (w : world) :
  mkdir_error folder w = None ->
  (forall p t w2, writeFile_error p t w2 = None) ->
  json_value (Object props) ->
  exists w', saveData (Object props) folder w = (Normal tt, w').
Proof.
  intros Hm Hw Hj.
  destruct (choose_fileName (Object props) (with_dir folder (record (FsMkdir folder) w)))
    as [r w2] eqn:Hc.
  pose proof (ser_json_value [] _ Hj) as Hs.
  destruct (choose_fileName_world _ _ _ _ Hc) as (_ & _ & _ & [[name ->] | [e ->]]).
  - rewrite (saveData_run _ folder w w2 name _ Hm Hc Hs), Hw. eauto.
  - exfalso. revert Hc. unfold choose_fileName. run.
    destruct (has_fileName (Object props)) as [[|]|e'] eqn:E.
    + apply has_fileName_true in E as (s & _ & ->). discriminate.
    + discriminate.
    + apply has_fileName_throws in E as [E|E]; discriminate.
Qed.

(** ** Further properties of the code *)

(** *** Configuration *)

Lemma getPort_cases (s : jsstring) :
  (exists p, getPort s = Normal p /\ (1024 <= p <= 65535)%Z) \/
  getPort s = Throw (Error (lit "Invalid PORT_NUMBER: " ++ s)).
Proof.
  unfold getPort. destruct (parseInt s) as [q|]; [|right; reflexivity].
  destruct (Z.ltb_spec q 1024); [right; reflexivity|].
  destruct (q >? 65535)%Z eqn:E; [right; reflexivity|].
  left. exists q. split; [reflexivity | lia].
Qed.

(** X1.  [SAVE_FOLDER] never throws and is never the empty string: it is
    the value of [DATA_LOCATION] when that is set and not empty, and
    ./data in every other environment. *)
Theorem SAVE_FOLDER_defined (env : environment) :
  exists folder,
    SAVE_FOLDER env = Normal folder /\ folder <> [] /\
    (env !! lit "DATA_LOCATION" = Some folder \/
     (folder = lit "./data" /\ truthy (env !! lit "DATA_LOCATION") = None)).
Proof.
  unfold SAVE_FOLDER, getEnvVar.
  destruct (env !! lit "DATA_LOCATION") as [[|c r]|]; cbn [truthy].
  - exists (lit "./data"). split; [reflexivity|]. split; [discriminate | auto].
  - exists (c :: r). split; [reflexivity|]. split; [discriminate | auto].
  - exists (lit "./data"). split; [reflexivity|]. split; [discriminate | auto].
Qed.

(** X2.  [PORT] is either a port in 1024..65535 or the error
    [Invalid PORT_NUMBER: v], where [v] is the value that the environment
    gives to [PORT_NUMBER]; it never fails for a variable that is not set,
    and never yields a port out of range. *)
Theorem PORT_outcome (env : environment) :
  (exists p, PORT env = Normal p /\ (1024 <= p <= 65535)%Z) \/
  (exists v, env !! lit "PORT_NUMBER" = Some v /\ v <> [] /\
             PORT env = Throw (Error (lit "Invalid PORT_NUMBER: " ++ v))).
Proof.
  unfold PORT, getEnvVar.
  destruct (env !! lit "PORT_NUMBER") as [[|c r]|]; cbn [truthy mbind completion_bind].
  - left. exists 3000%Z. split; [reflexivity | lia].
  - destruct (getPort_cases (c :: r)) as [H|H]; [left; exact H|].
    right. exists (c :: r). split; [reflexivity|]. split; [discriminate | exact H].
  - left. exists 3000%Z. split; [reflexivity | lia].
Qed.

(** X3.  A string that starts with a minus sign is never a port: whatever
    follows the sign, [getPort] throws. *)
Theorem getPort_minus (s : jsstring) :
  getPort (45 :: s) = Throw (Error (lit "Invalid PORT_NUMBER: " ++ 45 :: s)).
Proof.
  unfold getPort, parseInt. cbn [trimStart].
  change (is_white_space 45) with false. cbv iota zeta.
  change (45 =? 45) with true. change ((45 =? 43) || true) with true. cbv iota.
  destruct (read_digits s) eqn:E; try reflexivity;
    match goal with
    | |- context [ (?q <? 1024)%Z ] =>
        destruct (Z.ltb_spec q 1024); [reflexivity | lia]
    end.
Qed.

Lemma read_digits_app (d : Decimal.uint) (s : jsstring) :
  match s with c :: _ => is_digit c = false | [] => True end ->
  read_digits (digits_of_uint d ++ s) = d.
Proof.
  intros Hs. induction d; cbn [digits_of_uint app read_digits];
    try (change (is_digit _) with true; cbv iota; rewrite IHd; reflexivity).
  destruct s as [|c r]; [reflexivity|]. cbn [read_digits]. rewrite Hs. reflexivity.
Qed.

(** X4.  [getPort] reads the digits at the head of the string and ignores
    what follows them: on the decimal notation of [n] followed by any text
    that does not start with a digit it returns [n] when [n] is in
    1024..65535, and throws otherwise. *)
Theorem getPort_trailing_text (n : N) (s : jsstring) :
  match s with c :: _ => is_digit c = false | [] => True end ->
  getPort (decimal n ++ s) =
  if (1024 <=? n) && (n <=? 65535) then Normal (Z.of_N n)
  else Throw (Error (lit "Invalid PORT_NUMBER: " ++ decimal n ++ s)).
Proof.
  intros Hs.
  assert (Hp : parseInt (decimal n ++ s) = Some (Z.of_N n)).
  { unfold parseInt, decimal.
    pose proof (to_uint_not_nil n) as Hnil.
    pose proof (digits_of_uint_are_digits (N.to_uint n)) as Hd.
    pose proof (DecimalN.Unsigned.of_to n) as Hn.
    pose proof (read_digits_app (N.to_uint n) s Hs) as Hr.
    destruct (digits_of_uint (N.to_uint n)) as [|c r] eqn:E.
    - destruct (N.to_uint n); try discriminate; congruence.
    - cbn [forallb] in Hd. apply andb_true_iff in Hd as [Hc _].
      cbn [app] in *.
      assert (Ht : trimStart (c :: r ++ s) = c :: r ++ s).
      { cbn [trimStart]. rewrite (digit_not_white_space c Hc). reflexivity. }
      rewrite Ht. cbv zeta.
      unfold is_digit in Hc. apply andb_true_iff in Hc as [H1 _].
      apply N.leb_le in H1.
      assert ((c =? 45) = false) as -> by (apply N.eqb_neq; lia).
      assert ((c =? 43) = false) as -> by (apply N.eqb_neq; lia).
      cbn [orb]. rewrite Hr.
      destruct (N.to_uint n) eqn:E2; try congruence; rewrite Hn; f_equal; lia. }
  unfold getPort. rewrite Hp.
  destruct (N.leb_spec 1024 n), (N.leb_spec n 65535); simpl;
    destruct (Z.ltb_spec (Z.of_N n) 1024); simpl; try lia; try reflexivity;
    destruct (Z.of_N n >? 65535)%Z eqn:E; try reflexivity; lia.
Qed.

(** *** The two validators *)

(** X5.  The current validator is the stricter one: every value it
    accepts is accepted by the earlier validator. *)
Theorem validateData_stricter (data : value) :
  validateData data = Normal true -> validateData_a data = Normal true.
Proof.
  destruct data as [ | | b | n | s | l | props ]; intros H;
    try (vm_compute in H; discriminate); reflexivity.
Qed.

(** *** The synthesized file name, for every reading of the clock *)

Lemma digit_name_char (s : jsstring) :
  forallb is_digit s = true -> forallb is_name_char s = true.
Proof.
  rewrite !forallb_forall. intros H c Hc. unfold is_name_char.
  rewrite (H c Hc). reflexivity.
Qed.

Lemma name_char_safe (c : N) :
  is_name_char c = true ->
  c <> 47 /\ c <> 92 /\ c <> 58 /\ c <> 0 /\ is_white_space c = false.
Proof.
  unfold is_name_char, is_digit, is_white_space. intros H.
  assert (Hc : 48 <= c <= 57 \/ 97 <= c <= 122 \/ c = 45 \/ c = 95 \/ c = 46).
  { repeat (apply orb_true_iff in H as [H|H]);
      try (apply N.eqb_eq in H; lia);
      apply andb_true_iff in H as [H1 H2]; apply N.leb_le in H1, H2; lia. }
  repeat split; try lia.
  repeat match goal with
         | |- context [ ?a =? ?b ] => destruct (N.eqb_spec a b); [lia|]
         end.
  destruct (N.leb_spec 8192 c); [lia|]. reflexivity.
Qed.

(** X6.  Whatever the clock reads, the synthesized file name is made of
    lower-case letters, digits, hyphens, one underscore and one full stop
    only: it holds no slash, backslash, colon, NUL or white space. *)
Theorem timestamp_name_safe (now : Date) :
  forallb is_name_char (timestamp_name now) = true /\
  forall c, In c (timestamp_name now) ->
            c <> 47 /\ c <> 92 /\ c <> 58 /\ c <> 0 /\ is_white_space c = false.
Proof.
  assert (H : forallb is_name_char (timestamp_name now) = true).
  { rewrite timestamp_name_format. unfold two_digits.
    rewrite !forallb_app.
    rewrite !(digit_name_char (padStart _ 48 _)) by apply padStart_digits.
    rewrite (digit_name_char (decimal (year now)))
      by apply digits_of_uint_are_digits.
    reflexivity. }
  split; [exact H|]. intros c Hc. apply name_char_safe.
  rewrite forallb_forall in H. apply H, Hc.
Qed.

Lemma read_digits_zeros (k : nat) (s : jsstring) :
  N.of_uint (read_digits (repeat 48 k ++ s)) = N.of_uint (read_digits s).
Proof. induction k as [|k IH]; [reflexivity|]. cbn [repeat app read_digits]. exact IH. Qed.

(** A number printed with zeros in front reads back as the number. *)
Lemma padStart_value (k : nat) (n : N) :
  N.of_uint (read_digits (padStart k 48 (decimal n))) = n.
Proof.
  unfold padStart, decimal. rewrite read_digits_zeros, read_digits_of_uint.
  apply DecimalN.Unsigned.of_to.
Qed.

Lemma decimal_value (n : N) : N.of_uint (read_digits (decimal n)) = n.
Proof. unfold decimal. rewrite read_digits_of_uint. apply DecimalN.Unsigned.of_to. Qed.

Lemma length_lit_app (a b x y : jsstring) :
  length a = length b -> a ++ x = b ++ y -> a = b /\ x = y.
Proof. intros Hl H. apply app_inj_1 in H; assumption. Qed.

(** X7.  For a date of the calendar with a year of four digits the
    synthesized name has 33 characters, in the layout
    data-DD-MM-YYYY_HH-mm-ss-SSS.json. *)
Theorem timestamp_name_layout (now : Date) :
  in_calendar now ->
  length (timestamp_name now) = 33%nat /\
  timestamp_name now =
  lit "data-" ++ two_digits (day now) ++ lit "-" ++ two_digits (month now) ++
  lit "-" ++ decimal (year now) ++ lit "_" ++ two_digits (hours now) ++
  lit "-" ++ two_digits (minutes now) ++ lit "-" ++ two_digits (seconds now) ++
  lit "-" ++ padStart 3 48 (decimal (milliseconds now)) ++ lit ".json".
Proof.
  intros (Hd & Hm & Hy & Hh & Hmi & Hs & Hms).
  split; [|apply timestamp_name_format].
  rewrite timestamp_name_format, !length_app.
  rewrite (proj1 (timestamp_digits (day now)) Hd).
  rewrite (proj1 (timestamp_digits (month now)) Hm).
  rewrite (proj2 (proj2 (timestamp_digits (year now))) Hy).
  rewrite (proj1 (timestamp_digits (hours now)) Hh).
  rewrite (proj1 (timestamp_digits (minutes now)) Hmi).
  rewrite (proj1 (timestamp_digits (seconds now)) Hs).
  rewrite (proj1 (proj2 (timestamp_digits (milliseconds now))) Hms).
  reflexivity.
Qed.

(** X8.  Two readings of the clock get the same file name exactly when
    they show the same local date and time of day, to the millisecond; the
    time zone plays no part. *)
Theorem timestamp_name_same_iff (a b : Date) :
  in_calendar a -> in_calendar b ->
  timestamp_name a = timestamp_name b <-> same_local_time a b.
Proof.
  intros (Hd & Hm & Hy & Hh & Hmi & Hs & Hms) (Hd' & Hm' & Hy' & Hh' & Hmi' & Hs' & Hms').
  rewrite !timestamp_name_format. split.
  - intros H.
    pose proof (fun n => proj1 (timestamp_digits n)) as L2.
    pose proof (fun n => proj1 (proj2 (timestamp_digits n))) as L3.
    pose proof (fun n => proj2 (proj2 (timestamp_digits n))) as L4.
    apply app_inv_head in H.
    apply length_lit_app in H as [E1 H]; [|rewrite !L2 by assumption; reflexivity].
    apply app_inv_head in H.
    apply length_lit_app in H as [E2 H]; [|rewrite !L2 by assumption; reflexivity].
    apply app_inv_head in H.
    apply length_lit_app in H as [E3 H]; [|rewrite !L4 by assumption; reflexivity].
    apply app_inv_head in H.
    apply length_lit_app in H as [E4 H]; [|rewrite !L2 by assumption; reflexivity].
    apply app_inv_head in H.
    apply length_lit_app in H as [E5 H]; [|rewrite !L2 by assumption; reflexivity].
    apply app_inv_head in H.
    apply length_lit_app in H as [E6 H]; [|rewrite !L2 by assumption; reflexivity].
    apply app_inv_head in H.
    apply length_lit_app in H as [E7 _]; [|rewrite !L3 by assumption; reflexivity].
    unfold two_digits in *.
    apply (f_equal (fun s => N.of_uint (read_digits s))) in E1, E2, E3, E4, E5, E6, E7.
    rewrite !padStart_value in E1, E2, E4, E5, E6, E7.
    rewrite !decimal_value in E3.
    repeat split; assumption.
  - intros (E1 & E2 & E3 & E4 & E5 & E6 & E7).
    rewrite E1, E2, E3, E4, E5, E6, E7. reflexivity.
Qed.

(** *** The persister, step by step *)

(** [saveData] by the outcome of each of its steps. *)
Lemma saveData_unfold (data : value) (folder : jsstring) (w : world) :
  saveData data folder w =
  match mkdir_error folder w with
  | Some e => save_failure folder e (record (FsMkdir folder) w)
  | None =>
      match choose_fileName data (with_dir folder (record (FsMkdir folder) w)) with
      | (Throw e, w2) => save_failure folder e w2
      | (Normal name, w2) =>
          match path_join_value folder name with
          | Throw e => save_failure folder e w2
          | Normal p =>
              match JSON_stringify data with
              | None =>
                  save_failure folder
                    (TypeError (lit "The data argument must be of type string")) w2
              | Some text =>
                  match writeFile_error p text w2 with
                  | Some e =>
                      save_failure folder e (record (FsWriteFile p text (lit "utf8")) w2)
                  | None =>
                      (Normal tt,
                       with_file p text (record (FsWriteFile p text (lit "utf8")) w2))
                  end
              end
          end
      end
  end.
Proof.
  unfold saveData, save_failure. run. unfold fs_mkdir.
  destruct (mkdir_error folder w); [reflexivity|].
  destruct (choose_fileName data _) as [[name|e] w2]; [|reflexivity].
  destruct (path_join_value folder name) as [p|e]; [|reflexivity].
  destruct (JSON_stringify data) as [text|]; [|reflexivity].
  unfold fs_writeFile. destruct (writeFile_error p text w2); reflexivity.
Qed.

Lemma saveData_v1_unfold (data : value) (folder : jsstring) (w : world) :
  saveData_v1 data folder w =
  match mkdir_error folder w with
  | Some e => save_failure folder e (record (FsMkdir folder) w)
  | None =>
      let w1 := with_dir folder (record (FsMkdir folder) w) in
      let p := path_join folder (timestamp_name (clock (ticks w))) in
      match JSON_stringify data with
      | None =>
          save_failure folder
            (TypeError (lit "The data argument must be of type string")) (tick w1)
      | Some text =>
          match writeFile_error p text (tick w1) with
          | Some e =>
              save_failure folder e (record (FsWriteFile p text (lit "utf8")) (tick w1))
          | None =>
              (Normal tt,
               with_file p text (record (FsWriteFile p text (lit "utf8")) (tick w1)))
          end
      end
  end.
Proof.
  unfold saveData_v1, save_failure. run. unfold fs_mkdir.
  destruct (mkdir_error folder w); [reflexivity|]. cbv zeta.
  change (ticks (with_dir folder (record (FsMkdir folder) w))) with (ticks w).
  replace (lit "data-" ++
           (replace_all 47 45 (toLocaleDateString_enGB (clock (ticks w))) ++
            lit "_" ++
            replace_all 58 45 (before_space (toTimeString (clock (ticks w)))) ++
            lit "-" ++ padStart 3 48 (decimal (getMilliseconds (clock (ticks w))))) ++
           lit ".json")
    with (timestamp_name (clock (ticks w)))
    by (unfold timestamp_name; rewrite <- !app_assoc; reflexivity).
  destruct (JSON_stringify data) as [text|]; [|reflexivity].
  unfold fs_writeFile.
  destruct (writeFile_error _ text _); reflexivity.
Qed.

Lemma JSON_stringify_defined (data : value) :
  JSON_stringify data = None <-> data = Undefined.
Proof.
  destruct data as [ | | [|] | n | s | l | l ]; cbn; split;
    (discriminate || reflexivity).
Qed.

(** The three ways [saveData] comes to a file name. *)
Lemma choose_fileName_cases (data : value) (w : world) :
  (is_nullish data = true /\
   choose_fileName data w =
   (Throw (TypeError (lit "Cannot read properties of " ++
                      (if is_null data then lit "null" else lit "undefined") ++
                      lit " (reading 'fileData')")), w)) \/
  (exists s, names_file data s /\
             choose_fileName data w = (Normal (String s), w)) \/
  (is_nullish data = false /\ (forall s, ~ names_file data s) /\
   choose_fileName data w =
   (Normal (String (timestamp_name (clock (ticks w)))), tick w)).
Proof.
  destruct (has_fileName data) as [[|]|e] eqn:E.
  - right. left. apply has_fileName_true in E as (s & Hn & _).
    exists s. split; [exact Hn|]. apply choose_fileName_spec, Hn.
  - right. right.
    assert (Hnn : is_nullish data = false)
      by (destruct data; try reflexivity; vm_compute in E; discriminate).
    split; [exact Hnn|]. split.
    + intros s Hs. apply names_file_has_fileName in Hs as [Hs _]. congruence.
    + apply choose_fileName_spec, E.
  - left. apply has_fileName_throws in E as [-> | ->]; split; reflexivity.
Qed.

Lemma saveData_uses_override_aux (data : value) (s folder : jsstring) (w w' : world) :
  names_file data s -> saveData data folder w = (Normal tt, w') ->
  exists text,
    JSON_stringify data = Some text /\
    files w' = <[ path_join folder s := text ]> (files w).
Proof.
  intros Hn. rewrite saveData_unfold.
  destruct (mkdir_error folder w); [discriminate|].
  destruct (choose_fileName_spec data (with_dir folder (record (FsMkdir folder) w)))
    as [Hc _]. rewrite (Hc s Hn). cbn [path_join_value].
  destruct (JSON_stringify data) as [text|]; [|discriminate].
  destruct (writeFile_error _ text _); [discriminate|].
  intros [= <-]. exists text. split; reflexivity.
Qed.

(** X9.  When the payload names its file, [saveData] never reads the
    clock, and a successful save puts the serialized payload at
    [path.join(folder, name)] with the name exactly as given. *)
Theorem saveData_uses_override (data : value) (s folder : jsstring) (w : world) :
  names_file data s ->
  ticks (snd (saveData data folder w)) = ticks w /\
  forall w', saveData data folder w = (Normal tt, w') ->
             exists text,
               JSON_stringify data = Some text /\
               files w' = <[ path_join folder s := text ]> (files w).
Proof.
  intros Hn. rewrite saveData_unfold.
  destruct (mkdir_error folder w); [split; [reflexivity | discriminate]|].
  destruct (choose_fileName_spec data (with_dir folder (record (FsMkdir folder) w)))
    as [Hc _]. rewrite (Hc s Hn). cbn [path_join_value].
  destruct (JSON_stringify data) as [text|]; [|split; [reflexivity | discriminate]].
  destruct (writeFile_error _ text _); [split; [reflexivity | discriminate]|].
  split; [reflexivity|]. intros w' [= <-]. exists text. split; reflexivity.
Qed.

(** X10.  When the payload is an actual value that names no file and the
    directory can be made, [saveData] reads the clock exactly once, and a
    successful save puts the serialized payload at the name synthesized
    from that reading. *)
Theorem saveData_uses_clock (data : value) (folder : jsstring) (w : world) :
  is_nullish data = false -> (forall s, ~ names_file data s) ->
  mkdir_error folder w = None ->
  ticks (snd (saveData data folder w)) = S (ticks w) /\
  forall w', saveData data folder w = (Normal tt, w') ->
             exists text,
               JSON_stringify data = Some text /\
               files w' =
               <[ path_join folder (timestamp_name (clock (ticks w))) := text ]>
                 (files w).
Proof.
  intros Hv Hno Hm. rewrite saveData_unfold, Hm.
  destruct (choose_fileName_cases data (with_dir folder (record (FsMkdir folder) w)))
    as [[Hx _] | [(s & Hs & _) | (_ & _ & Hc)]];
    [congruence | exfalso; apply (Hno s Hs) | ].
  rewrite Hc. cbn [path_join_value].
  destruct (JSON_stringify data) as [text|]; [|split; [reflexivity | discriminate]].
  destruct (writeFile_error _ text _); [split; [reflexivity | discriminate]|].
  split; [reflexivity|]. intros w' [= <-]. exists text. split; reflexivity.
Qed.

(** X11.  Saving twice under the same file name given by the payloads
    leaves one file, which holds the second payload: the second save
    replaces the file and adds none. *)
Theorem saveData_same_name_overwrites (d1 d2 : value) (s folder : jsstring)
    (w w1 w2 : world) :
  names_file d1 s -> names_file d2 s ->
  saveData d1 folder w = (Normal tt, w1) ->
  saveData d2 folder w1 = (Normal tt, w2) ->
  exists text2,
    JSON_stringify d2 = Some text2 /\
    files w2 = <[ path_join folder s := text2 ]> (files w) /\
    size (files w2) = size (files w1).
Proof.
  intros H1 H2 S1 S2.
  destruct (saveData_uses_override_aux d1 s folder w w1 H1 S1) as (t1 & _ & F1).
  destruct (saveData_uses_override_aux d2 s folder w1 w2 H2 S2) as (t2 & T2 & F2).
  exists t2. split; [exact T2|]. rewrite F2, F1. split.
  - apply insert_insert_eq.
  - rewrite map_size_insert, lookup_insert_eq. reflexivity.
Qed.

Lemma saveData_uses_clock_aux (data : value) (folder : jsstring) (w w' : world) :
  is_nullish data = false -> (forall s, ~ names_file data s) ->
  saveData data folder w = (Normal tt, w') ->
  ticks w' = S (ticks w) /\
  exists text,
    JSON_stringify data = Some text /\
    files w' =
    <[ path_join folder (timestamp_name (clock (ticks w))) := text ]> (files w).
Proof.
  intros Hv Hno. rewrite saveData_unfold.
  destruct (mkdir_error folder w); [discriminate|].
  destruct (choose_fileName_cases data (with_dir folder (record (FsMkdir folder) w)))
    as [[Hx _] | [(s & Hs & _) | (_ & _ & Hc)]];
    [congruence | exfalso; apply (Hno s Hs) | ].
  rewrite Hc. cbn [path_join_value].
  destruct (JSON_stringify data) as [text|]; [|discriminate].
  destruct (writeFile_error _ text _); [discriminate|].
  intros [= <-]. split; [reflexivity|]. exists text. split; reflexivity.
Qed.

Lemma same_local_time_name (a b : Date) :
  same_local_time a b -> timestamp_name a = timestamp_name b.
Proof.
  intros (E1 & E2 & E3 & E4 & E5 & E6 & E7). rewrite !timestamp_name_format.
  rewrite E1, E2, E3, E4, E5, E6, E7. reflexivity.
Qed.

(** X12.  Two saves of payloads that name no file, made one after the
    other while the clock shows the same local time to the millisecond,
    go to the same file: the second replaces the first without any error,
    and one file is left, holding the second payload. *)
Theorem saveData_same_millisecond (d1 d2 : value) (folder : jsstring)
    (w w1 w2 : world) :
  is_nullish d1 = false -> (forall s, ~ names_file d1 s) ->
  is_nullish d2 = false -> (forall s, ~ names_file d2 s) ->
  same_local_time (clock (ticks w)) (clock (S (ticks w))) ->
  saveData d1 folder w = (Normal tt, w1) ->
  saveData d2 folder w1 = (Normal tt, w2) ->
  exists text2,
    JSON_stringify d2 = Some text2 /\
    files w2 =
    <[ path_join folder (timestamp_name (clock (ticks w))) := text2 ]> (files w) /\
    size (files w2) = size (files w1).
Proof.
  intros V1 N1 V2 N2 Hc S1 S2.
  destruct (saveData_uses_clock_aux d1 folder w w1 V1 N1 S1) as (T1 & t1 & _ & F1).
  destruct (saveData_uses_clock_aux d2 folder w1 w2 V2 N2 S2) as (_ & t2 & E2 & F2).
  rewrite T1, <- (same_local_time_name _ _ Hc) in F2.
  exists t2. split; [exact E2|]. rewrite F2, F1. split.
  - apply insert_insert_eq.
  - rewrite map_size_insert, lookup_insert_eq. reflexivity.
Qed.

(** X13.  On the payload [null] or [undefined], [saveData] has made the
    directory before it fails on the first look into the payload: the
    directory is there, no file is written, and the error is the opaque
    one. *)
Theorem saveData_nullish (data : value) (folder : jsstring) (w : world) :
  is_nullish data = true -> mkdir_error folder w = None ->
  exists cause w',
    saveData data folder w = (Throw (Error (lit "Failed to save data")), w') /\
    w' = save_error_logged folder cause
           (with_dir folder (record (FsMkdir folder) w)) /\
    message cause =
      lit "Cannot read properties of " ++
      (if is_null data then lit "null" else lit "undefined") ++
      lit " (reading 'fileData')" /\
    dirs w' = {[ folder ]} ∪ dirs w /\ files w' = files w /\
    fs_calls w' = fs_calls w ++ [FsMkdir folder].
Proof.
  intros Hn Hm. rewrite saveData_unfold, Hm.
  destruct (choose_fileName_cases data (with_dir folder (record (FsMkdir folder) w)))
    as [[_ Hc] | [(s & (props & fd & -> & _) & _) | (Hx & _)]];
    [ | discriminate | congruence ].
  rewrite Hc. unfold save_failure. eexists _, _. split; [reflexivity|].
  split; [reflexivity|]. split; [reflexivity|].
  unfold save_error_logged. rewrite !fs_calls_record, !app_nil_r.
  change (fs_calls (with_dir folder ?x)) with (fs_calls x).
  rewrite fs_calls_record. auto.
Qed.

(** X14.  On a file system that refuses nothing, [saveData] fails for
    the payloads [null] and [undefined] and for no other: every other
    value, whatever its shape, is saved. *)
Theorem saveData_succeeds_iff (data : value) (folder : jsstring) (w : world) :
  (forall f w0, mkdir_error f w0 = None) ->
  (forall p t w0, writeFile_error p t w0 = None) ->
  fst (saveData data folder w) = Normal tt <-> is_nullish data = false.
Proof.
  intros Hm Hw. rewrite saveData_unfold, Hm.
  destruct (choose_fileName_cases data (with_dir folder (record (FsMkdir folder) w)))
    as [[Hx Hc] | [(s & Hs & Hc) | (Hx & _ & Hc)]]; rewrite Hc.
  - rewrite Hx. split; discriminate.
  - destruct Hs as (props & fd & -> & _). unfold JSON_stringify.
    cbn [path_join_value SerializeJSONProperty]. rewrite Hw. split; reflexivity.
  - rewrite Hx. cbn [path_join_value].
    destruct (JSON_stringify data) as [text|] eqn:E.
    + rewrite Hw. split; reflexivity.
    + apply JSON_stringify_defined in E. subst data. discriminate.
Qed.

(** X15.  Whenever the directory can be made, it is made, whatever
    happens afterwards: after [saveData] the folder is among the
    directories even if the save failed. *)
Theorem saveData_makes_directory (data : value) (folder : jsstring) (w : world) :
  mkdir_error folder w = None ->
  dirs (snd (saveData data folder w)) = {[ folder ]} ∪ dirs w.
Proof.
  intros Hm. rewrite saveData_unfold, Hm.
  destruct (choose_fileName data _) as [[name|e] w2] eqn:Hc;
    apply choose_fileName_world in Hc as (Hd & _);
    [|cbn; rewrite Hd; reflexivity].
  destruct (path_join_value folder name); [|cbn; rewrite Hd; reflexivity].
  destruct (JSON_stringify data) as [text|]; [|cbn; rewrite Hd; reflexivity].
  destruct (writeFile_error _ text _); cbn; rewrite Hd; reflexivity.
Qed.




(** *** What a successful save leaves behind *)

Lemma timestamp_name_chars (now : Date) :
  forallb is_name_char (timestamp_name now) = true.
Proof.
  rewrite timestamp_name_format. unfold two_digits.
  rewrite !forallb_app.
  rewrite !(digit_name_char (padStart _ 48 _)) by apply padStart_digits.
  rewrite (digit_name_char (decimal (year now)))
    by apply digits_of_uint_are_digits.
  reflexivity.
Qed.

(** The synthesized name is a plain file name. *)
Lemma timestamp_name_plain (now : Date) : plain_name (timestamp_name now) = true.
Proof.
  unfold plain_name.
  assert (Hs : forallb (fun c => negb (c =? 47)) (timestamp_name now) = true).
  { pose proof (timestamp_name_chars now) as H. rewrite forallb_forall in *.
    intros c Hc. destruct (name_char_safe c (H c Hc)) as [Hn _].
    apply negb_true_iff, N.eqb_neq, Hn. }
  rewrite Hs, timestamp_name_format.
  change (lit "data-") with [100; 97; 116; 97; 45]. reflexivity.
Qed.

(** X23.  When [saveData] succeeds on a JSON-representable payload, the
    file it wrote holds, as its whole contents, the text of
    [JSON.stringify(data, null, 2)], written with the encoding utf8, which
    loses nothing as the text has no lone surrogate, and [JSON.parse] of
    that text is the payload.  The file is under the name that the payload
    gives or, when it gives none, under the synthesized name, which is a
    plain file name.  There is one file more than before exactly when
    there was none at that path; so a directory that held no file holds
    exactly one afterwards whenever the name is a plain file name. *)
Theorem saveData_stores_payload (data : value) (folder : jsstring) (w w' : world) :
  json_value data ->
  saveData data folder w = (Normal tt, w') ->
  exists name text,
    JSON_stringify data = Some text /\
    JSON_parse text = Some data /\
    well_formed text = true /\
    (names_file data name \/
     ((forall s, ~ names_file data s) /\
      name = timestamp_name (clock (ticks w)) /\ plain_name name = true)) /\
    files w' = <[ path_join folder name := text ]> (files w) /\
    fs_calls w' =
      fs_calls w ++
      [FsMkdir folder; FsWriteFile (path_join folder name) text (lit "utf8")] /\
    size (files w') =
      match files w !! path_join folder name with
      | Some _ => size (files w)
      | None => S (size (files w))
      end /\
    (dir_empty folder w -> plain_name name = true ->
     size (files w') = S (size (files w)) /\
     dom (files w') = {[ path_join folder name ]} ∪ dom (files w) /\
     forall other, plain_name other = true ->
                   is_Some (files w' !! path_join folder other) ->
                   path_join folder other = path_join folder name).
Proof.
  intros Hj H.
  destruct (saveData_success_inv data folder w w' H)
    as (name & text & w2 & Hm & Hc & Hs & Hw & ->).
  destruct (JSON_round_trip data Hj) as (text' & Hs' & Hp).
  assert (text' = text) as -> by congruence.
  destruct (choose_fileName_world _ _ _ _ Hc) as (Hd & Hf & He & _).
  exists name, text. split; [exact Hs|]. split; [exact Hp|].
  split.
  { pose proof (ser_json_value [] data Hj) as Ht. fold (JSON_stringify data) in Ht.
    assert (text = text_of [] data) as -> by congruence.
    apply well_formed_text_of; [exact Hj | reflexivity]. }
  split.
  { destruct (choose_fileName_cases data (with_dir folder (record (FsMkdir folder) w)))
      as [[_ E] | [(s & Hn & E) | (_ & Hn & E)]];
      rewrite E in Hc; try discriminate.
    - left. injection Hc as -> _. exact Hn.
    - right. injection Hc as <- _. split; [exact Hn|].
      split; [reflexivity | apply timestamp_name_plain]. }
  assert (Hfiles : files (with_file (path_join folder name) text
                     (record (FsWriteFile (path_join folder name) text (lit "utf8")) w2))
                   = <[ path_join folder name := text ]> (files w)).
  { cbn [with_file record files]. rewrite Hf. reflexivity. }
  split; [exact Hfiles|].
  split.
  { unfold fs_calls. cbn [with_file record events]. rewrite He.
    cbn [with_dir record events]. rewrite <- app_assoc, omap_app. reflexivity. }
  split.
  { rewrite Hfiles, map_size_insert.
    destruct (files w !! path_join folder name); reflexivity. }
  intros Hempty Hplain. rewrite Hfiles. split; [|split].
  - apply map_size_insert_None, Hempty, Hplain.
  - apply dom_insert_L.
  - intros other Ho [x Hx].
    destruct (decide (path_join folder name = path_join folder other)) as [E|E];
      [symmetry; exact E|].
    rewrite lookup_insert_ne in Hx by exact E.
    rewrite (Hempty other Ho) in Hx. discriminate.
Qed.

(** *** The earlier persister *)

(** X17.  On every actual payload that names no file the earlier
    [saveData] and the current one do the same thing. *)
Theorem saveData_v1_agrees (data : value) (folder : jsstring) (w : world) :
  is_nullish data = false -> (forall s, ~ names_file data s) ->
  saveData_v1 data folder w = saveData data folder w.
Proof.
  intros Hv Hno. rewrite saveData_unfold, saveData_v1_unfold.
  destruct (mkdir_error folder w); [reflexivity|]. cbv zeta.
  destruct (choose_fileName_cases data (with_dir folder (record (FsMkdir folder) w)))
    as [[Hx _] | [(s & Hs & _) | (_ & _ & Hc)]];
    [congruence | exfalso; apply (Hno s Hs) | ].
  rewrite Hc. cbn [path_join_value]. reflexivity.
Qed.

(** X18.  The earlier [saveData] never looks into the payload: a file
    name in the payload is ignored, the file goes to the name synthesized
    from the clock, and on a file system that refuses nothing every
    payload but [undefined] is saved, [null] included. *)
Theorem saveData_v1_ignores_payload (data : value) (folder : jsstring) (w : world) :
  (forall w', saveData_v1 data folder w = (Normal tt, w') ->
     exists text,
       JSON_stringify data = Some text /\
       files w' =
       <[ path_join folder (timestamp_name (clock (ticks w))) := text ]> (files w)) /\
  ((forall f w0, mkdir_error f w0 = None) ->
   (forall p t w0, writeFile_error p t w0 = None) ->
   fst (saveData_v1 data folder w) = Normal tt <-> data <> Undefined).
Proof.
  split.
  - rewrite saveData_v1_unfold. destruct (mkdir_error folder w); [discriminate|].
    cbv zeta. destruct (JSON_stringify data) as [text|]; [|discriminate].
    destruct (writeFile_error _ text _); [discriminate|].
    intros w' [= <-]. exists text. split; reflexivity.
  - intros Hm Hw. rewrite saveData_v1_unfold, Hm. cbv zeta.
    destruct (JSON_stringify data) as [text|] eqn:E.
    + rewrite Hw. split; [|reflexivity]. intros _ ->. discriminate.
    + apply JSON_stringify_defined in E. subst data.
      split; [discriminate | intros H; contradiction].
Qed.

(** *** The application *)

Lemma post_process_run (folder : jsstring) (req_body : value) (w : world) :
  exists code b w1,
    post_process folder req_body w = (Normal tt, record (Response code b) w1) /\
    responses w1 = responses w.
Proof.
  unfold post_process. rewrite processRequest_run.
  destruct (validateData req_body) as [[|]|e].
  - destruct (saveData req_body folder w) as [[[]|e] w1] eqn:E;
      pose proof (quiet_saveData req_body folder w _ _ E) as Hq.
    + eexists _, _, _. split; [reflexivity|].
      rewrite responses_record, app_nil_r. exact Hq.
    + rewrite errorHandler_run. eexists _, _, _. split; [reflexivity|].
      rewrite !responses_record, !app_nil_r. exact Hq.
  - rewrite errorHandler_run. eexists _, _, _. split; [reflexivity|].
    rewrite !responses_record, !app_nil_r. reflexivity.
  - rewrite errorHandler_run. eexists _, _, _. split; [reflexivity|].
    rewrite !responses_record, !app_nil_r. reflexivity.
Qed.

(** X19.  Every request that has a route is answered exactly once, and
    its handler never throws: no error of the validator, of the persister
    or of the file system escapes the application. *)
Theorem handle_answers_once (folder : jsstring) (req : request) (w : world) :
  fst (handle folder req w) = Normal tt /\
  exists answer,
    responses (snd (handle folder req w)) = responses w ++ [answer].
Proof.
  destruct req as [ | | req_body ]; cbn [handle].
  - split; [reflexivity|]. eexists. unfold home. run. cbn [snd].
    rewrite responses_record. reflexivity.
  - split; [reflexivity|]. eexists. unfold healthcheck. run. cbn [snd].
    rewrite responses_record. reflexivity.
  - destruct (post_process_run folder req_body w) as (code & b & w1 & -> & Hq).
    split; [reflexivity|]. exists (code, b). cbn [snd].
    rewrite responses_record, Hq. reflexivity.
Qed.

(** X20.  Only a POST to /process whose body the validator accepts can
    touch the file system: for the two GET routes and for a rejected body
    no file-system call is made, and directories and files are as they
    were. *)
Theorem handle_read_only (folder : jsstring) (req : request) (w : world) :
  (forall req_body, req = PostProcess req_body ->
                    validateData req_body <> Normal true) ->
  let w' := snd (handle folder req w) in
  fs_calls w' = fs_calls w /\ dirs w' = dirs w /\ files w' = files w.
Proof.
  intros Hr. cbv zeta. destruct req as [ | | req_body ]; cbn [handle].
  - unfold home. run. cbn [snd]. rewrite fs_calls_record, app_nil_r. auto.
  - unfold healthcheck. run. cbn [snd]. rewrite fs_calls_record, app_nil_r. auto.
  - specialize (Hr req_body eq_refl). unfold post_process.
    rewrite processRequest_run.
    destruct (validateData req_body) as [[|]|e]; [congruence | |];
      rewrite errorHandler_run; cbn [snd];
      rewrite !fs_calls_record, !app_nil_r; auto.
Qed.

(** X21.  When the directory cannot be made for an accepted body, the
    cause is written to the console and nowhere else: the request leaves
    four error lines, the second one with the message of the cause, and
    the response is the fixed 500 [Failed to save the provided data]. *)
Theorem post_process_hides_cause (folder : jsstring) (req_body : value)
    (cause : error) (w : world) :
  validateData req_body = Normal true ->
  mkdir_error folder w = Some cause ->
  events (snd (post_process folder req_body w)) =
  events w ++
  [FsMkdir folder;
   ConsoleError (lit "[SAVE ERROR] Check folder " ++ [34] ++ folder ++ [34] ++
                 lit " or permissions.");
   ConsoleError (lit "[SAVE ERROR] " ++ message cause);
   ConsoleError (lit "[PROCESS ERROR] " ++ stack (Error (lit "Failed to save data")));
   ConsoleError (lit "[ERROR] Failed to save data");
   Response 500 save_failed].
Proof.
  intros Hv Hm. unfold post_process.
  rewrite processRequest_run, Hv, (saveData_mkdir_fails _ _ _ _ Hm), errorHandler_run.
  cbn [snd message].
  change (str_eq (lit "Failed to save data")
                 (lit "Data is not in the correct format")) with false.
  change (str_eq (lit "Failed to save data") (lit "Failed to save data")) with true.
  cbv iota. unfold save_error_logged. cbn [events record].
  rewrite <- !app_assoc. reflexivity.
Qed.

Lemma validateData_not_nullish (data : value) :
  validateData data = Normal true -> exists props, data = Object props.
Proof.
  destruct data as [ | | b | n | s | l | props ]; intros H;
    try (vm_compute in H; discriminate). eauto.
Qed.

(** X22.  End to end: for a body that the validator accepts and that JSON
    can represent, on a file system that refuses nothing, the request
    makes the directory, writes one file whose text parses back to the
    body, logs the completion and only then answers 200 [Success]. *)
Theorem post_process_stores_body (folder : jsstring) (req_body : value) (w : world) :
  validateData req_body = Normal true ->
  json_value req_body ->
  (forall f w0, mkdir_error f w0 = None) ->
  (forall p t w0, writeFile_error p t w0 = None) ->
  let w' := snd (post_process folder req_body w) in
  exists name text stamp,
    JSON_stringify req_body = Some text /\
    JSON_parse text = Some req_body /\
    files w' = <[ path_join folder name := text ]> (files w) /\
    events w' =
    events w ++
    [FsMkdir folder;
     FsWriteFile (path_join folder name) text (lit "utf8");
     ConsoleLog (lit "[" ++ stamp ++ lit "] " ++
                 lit "Completed request and saved to file");
     Response 200 (Text (lit "Success"))].
Proof.
  intros Hv Hj Hm Hw. cbv zeta.
  destruct (validateData_not_nullish _ Hv) as [props ->].
  destruct (JSON_round_trip _ Hj) as (text & Hs & Hp).
  unfold post_process. rewrite processRequest_run, Hv, saveData_unfold, Hm.
  destruct (choose_fileName_cases (Object props)
              (with_dir folder (record (FsMkdir folder) w)))
    as [[Hx _] | [(s & _ & Hc) | (_ & _ & Hc)]]; [discriminate | |];
    rewrite Hc; cbn [path_join_value]; rewrite Hs, Hw; cbn [snd].
  - exists s, text, (toISOString (clock (ticks w))).
    split; [reflexivity|]. split; [exact Hp|]. split; [reflexivity|].
    cbn [events record tick with_file with_dir].
    rewrite <- !app_assoc. reflexivity.
  - exists (timestamp_name (clock (ticks w))), text,
      (toISOString (clock (S (ticks w)))).
    split; [reflexivity|]. split; [exact Hp|]. split; [reflexivity|].
    cbn [events record tick with_file with_dir].
    rewrite <- !app_assoc. reflexivity.
Qed.

End Program.

(** ** Examples on a concrete platform

    The Numbers are the integers, the clock stands at [example_now], and
    the file system refuses nothing unless said otherwise. *)

(** C7: the earlier validator accepts the empty array [[]]; it does not
    return false for every array. *)
Lemma validateData_a_accepts_array :
  ~ (forall l : list (@value Z), validateData_a (Array l) = Normal false).
Proof. intros H. specialize (H []). discriminate H. Qed.

(** C8: on the array [["x"]] the earlier validator returns true, so the
    two validators do not both return false on every array. *)
Lemma validators_differ_on_array :
  validateData (@Array Z [String (lit "x")]) = Normal false /\
  validateData_a (@Array Z [String (lit "x")]) = Normal true /\
  validateData_a (@Array Z [String (lit "x")]) <> Normal false.
Proof. repeat split. discriminate. Qed.

(** C4 on the body [{}]. *)
Lemma rejected_body_not_saved_witness :
  validateData (@Object Z []) = Normal false /\
  let w' :=
    snd (post_process (fun z => negb (z =? 0)%Z) (fun _ => true) int_to_string
           (fun _ => example_now) (fun _ => lit "2026-11-03T14:05:09.007Z")
           message slash_join (fun _ _ => None) (fun _ _ _ => None)
           (lit "./data") (Object []) (@empty_world Z)) in
  fs_calls w' = fs_calls (@empty_world Z) /\ dirs w' = dirs (@empty_world Z) /\
  files w' = files (@empty_world Z) /\
  responses w' = responses (@empty_world Z) ++ [(400, invalid_input)].
Proof.
  split; [reflexivity|].
  exact (proj2 (rejected_body_not_saved (fun z => negb (z =? 0)%Z) (fun _ => true)
                  int_to_string (fun _ => example_now)
                  (fun _ => lit "2026-11-03T14:05:09.007Z") message slash_join
                  (fun _ _ => None) (fun _ _ _ => None) (lit "./data") (Object [])
                  (fun _ => ret tt) empty_world eq_refl)).
Defined.

(** C1 on the body [{"url": "https://example.com"}] with a file system
    that refuses nothing: the one response is 200 [Success]. *)
Lemma post_process_outcome_witness :
  let platform_post :=
    post_process (fun z => negb (z =? 0)%Z) (fun _ => true) int_to_string
      (fun _ => example_now) (fun _ => lit "2026-11-03T14:05:09.007Z")
      message slash_join (fun _ _ => None) (fun _ _ _ => None) in
  responses
    (snd (platform_post (lit "./data")
            (@Object Z [(lit "url", String (lit "https://example.com"))])
            empty_world)) =
  [(200, Text (lit "Success"))].
Proof.
  cbv zeta.
  destruct (post_process_outcome (fun z => negb (z =? 0)%Z) (fun _ => true)
              int_to_string (fun _ => example_now)
              (fun _ => lit "2026-11-03T14:05:09.007Z") message slash_join
              (fun _ _ => None) (fun _ _ _ => None) (lit "./data")
              (@Object Z [(lit "url", String (lit "https://example.com"))])
              empty_world) as [H _].
  destruct (H eq_refl) as [Hok _].
  exact (Hok _ ltac:(vm_compute; reflexivity)).
Defined.

(** C5 with a file system that refuses to create the directory because a
    regular file is in the way: the reported error is the opaque one, and
    the only file-system call is the [mkdir]. *)
Lemma saveData_failure_opaque_witness :
  let refused := Error (lit "EEXIST: file already exists, mkdir './data'") in
  let failed :=
    saveData (fun z => negb (z =? 0)%Z) (fun _ => true) int_to_string
      (fun _ => example_now) slash_join (fun _ _ => Some refused)
      (fun _ _ _ => None)
      (@Object Z [(lit "url", String (lit "https://example.com"))])
      (lit "./data") empty_world in
  fst failed = Throw (Error (lit "Failed to save data")) /\
  fs_calls (snd failed) = [FsMkdir (lit "./data")] /\
  files (snd failed) = ∅.
Proof.
  cbv zeta.
  destruct (saveData_failure_opaque (fun z => negb (z =? 0)%Z) (fun _ => true)
              int_to_string (fun _ => example_now) slash_join
              (fun _ _ => Some (Error (lit "EEXIST: file already exists, mkdir './data'")))
              (fun _ _ _ => None)
              (@Object Z [(lit "url", String (lit "https://example.com"))])
              (lit "./data") empty_world) as (_ & H & _).
  destruct (H _ eq_refl) as (w' & E & _ & Hc & Hf & _).
  rewrite E. cbn [fst snd]. auto.
Defined.

(** C3 at [example_now]: for a payload without [fileData], [saveData]
    names the file with the year in full, [03-11-2026]; the name that the
    pattern DD-MM-YY describes, with [03-11-26], is another one. *)
Theorem saveData_names_file_with_full_year :
  let payload := @Object Z [(lit "url", String (lit "https://example.com"))] in
  let saved :=
    saveData (fun z => negb (z =? 0)%Z) (fun _ => true) int_to_string
      (fun _ => example_now) slash_join (fun _ _ => None) (fun _ _ _ => None)
      payload (lit "./data") empty_world in
  toLocaleDateString_enGB example_now = lit "03/11/2026" /\
  fst (choose_fileName (fun z => negb (z =? 0)%Z) (fun _ => example_now)
         payload empty_world) =
    Normal (String (lit "data-03-11-2026_14-05-09-007.json")) /\
  (exists text,
      files (snd saved) =
      {[ lit "./data/data-03-11-2026_14-05-09-007.json" := text ]}) /\
  timestamp_name example_now <> lit "data-03-11-26_14-05-09-007.json".
Proof.
  cbv zeta. split; [reflexivity|]. split; [vm_compute; reflexivity|].
  split; [|vm_compute; discriminate].
  exists (text_of (fun _ => true) int_to_string []
            (@Object Z [(lit "url", String (lit "https://example.com"))])).
  vm_compute. reflexivity.
Qed.

(** On the integers every number is one that JSON can represent: its
    decimal notation is a number literal without a leading zero, and reads
    back as the number. *)
Lemma int_json_number (z : Z) :
  json_number (fun _ => true) int_to_string int_of_string z.
Proof.
  assert (Hpos : forall p,
             exists c r, decimal (Npos p) = c :: r /\ is_digit c = true /\
                         (c =? 48) = false /\ forallb is_digit (c :: r) = true /\
                         N.of_uint (read_digits (c :: r)) = Npos p).
  { intros p. unfold decimal. cbn [N.to_uint].
    pose proof (DecimalPos.Unsigned.of_to p) as Hof.
    pose proof (DecimalPos.Unsigned.to_of (Pos.to_uint p)) as Hto.
    rewrite Hof in Hto. cbn [N.to_uint] in Hto.
    pose proof (DecimalPos.Unsigned.to_uint_nonzero p) as Hnz.
    pose proof (digits_of_uint_are_digits (Pos.to_uint p)) as Hd.
    pose proof (read_digits_of_uint (Pos.to_uint p)) as Hr.
    assert (Hhead : forall u, Pos.to_uint p <> Decimal.D0 u).
    { intros u E. rewrite E in Hto.
      unfold Decimal.unorm in Hto.
      destruct (Decimal.nzhead (Decimal.D0 u)) eqn:En;
        apply (DecimalFacts.nzhead_nonzero (Decimal.D0 u) u); congruence. }
    destruct (Pos.to_uint p) as [|u|u|u|u|u|u|u|u|u|u] eqn:E;
      [ exfalso; revert Hof; cbn; discriminate
      | exfalso; apply (Hhead u); reflexivity | .. ];
      cbn [digits_of_uint] in *; eexists _, _;
      (split; [reflexivity|]); (split; [reflexivity|]);
      (split; [reflexivity|]); (split; [exact Hd|]);
      rewrite Hr; exact Hof. }
  unfold json_number, number_token. destruct z as [|p|p]; cbn [int_to_string].
  - repeat split; reflexivity.
  - destruct (Hpos p) as (c & r & -> & Hc & H0 & Hd & Hv).
    repeat split.
    + rewrite Hc. reflexivity.
    + rewrite forallb_forall in *. intros x Hx. unfold is_number_char.
      rewrite (Hd x Hx). reflexivity.
    + unfold int_of_string.
      assert ((c =? 45) = false) as ->.
      { unfold is_digit in Hc. apply andb_true_iff in Hc as [H1 H2].
        apply N.leb_le in H1. apply N.eqb_neq. lia. }
      rewrite Hd, H0. cbn [andb negb orb]. rewrite Hv. reflexivity.
  - destruct (Hpos p) as (c & r & -> & Hc & H0 & Hd & Hv).
    repeat split.
    + rewrite forallb_forall in *. intros x [<-|Hx]; [reflexivity|].
      unfold is_number_char. rewrite (Hd x Hx). reflexivity.
    + unfold int_of_string. change (45 =? 45) with true. cbv iota.
      rewrite Hd, H0. cbn [andb negb orb]. rewrite Hv. reflexivity.
Qed.

(** ** A file name that leaves the folder *)

Lemma segments_plain (cur name : list N) :
  forallb (fun c => negb (c =? 47)) name = true ->
  segments cur name = [cur ++ name].
Proof.
  revert cur. induction name as [|c r IH]; intros cur H.
  - rewrite app_nil_r. reflexivity.
  - cbn [forallb] in H. apply andb_true_iff in H as [Hc Hr].
    cbn [segments]. apply negb_true_iff in Hc. rewrite Hc.
    rewrite (IH _ Hr), <- app_assoc. reflexivity.
Qed.

Lemma last_of_plain (pre name : list N) :
  plain_name name = true ->
  match rev (pre ++ name) with l :: _ => l =? 47 | [] => false end = false.
Proof.
  unfold plain_name. intros H.
  apply andb_true_iff in H as [H Hs].
  apply andb_true_iff in H as [H _]. apply andb_true_iff in H as [He _].
  rewrite rev_app_distr.
  destruct (rev name) as [|l t] eqn:E.
  - apply (f_equal (@rev N)) in E. rewrite rev_involutive in E. subst name.
    discriminate.
  - cbn [app]. rewrite forallb_forall in Hs.
    apply negb_true_iff, Hs, in_rev. rewrite E. left. reflexivity.
Qed.

(** Under ./data, [path.join] puts a plain file name behind data/. *)
Lemma posix_join_plain (name : list N) :
  plain_name name = true ->
  posix_join (lit "./data") name = lit "data/" ++ name.
Proof.
  intros H. pose proof (last_of_plain [46; 47; 100; 97; 116; 97; 47] name H) as Hl.
  cbn [app] in Hl. unfold plain_name in H.
  apply andb_true_iff in H as [H Hs].
  apply andb_true_iff in H as [H H2]. apply andb_true_iff in H as [He H1].
  apply negb_true_iff in He, H1, H2.
  change (lit "./data") with [46; 47; 100; 97; 116; 97].
  change (lit "data/") with [100; 97; 116; 97; 47].
  assert (Hj : posix_join [46; 47; 100; 97; 116; 97] name =
               normalize (46 :: 47 :: 100 :: 97 :: 116 :: 97 :: 47 :: name)).
  { destruct name; [discriminate | reflexivity]. }
  rewrite Hj. unfold normalize. rewrite Hl.
  change (46 =? 47) with false. cbn [negb]. unfold normalizeString.
  cbn [app segments]. change (46 =? 47) with false. change (47 =? 47) with true.
  change (100 =? 47) with false. change (97 =? 47) with false.
  change (116 =? 47) with false. cbv iota. cbn [app].
  rewrite (segments_plain [] name Hs). cbn [app fold_left].
  replace (push_segment true [] [46]) with (@nil (list N)) by reflexivity.
  replace (push_segment true [] [100; 97; 116; 97]) with [[100; 97; 116; 97]]
    by reflexivity.
  unfold push_segment. rewrite He, H1, H2. cbn [orb].
  reflexivity.
Qed.

(** C6.  A payload that the validator accepts and that JSON can represent
    can name its file [../escaped.json].  Saved to the folder ./data, which
    holds no file, beside an older file escaped.json, the payload is
    written over that file, outside the folder: the save succeeds, the
    text parses back to the payload, and no file has been made, in the
    folder or anywhere else. *)
Theorem saveData_escapes_folder :
  let payload : @value Z :=
    Object [(lit "url", String (lit "https://example.com"));
            (lit "fileData",
             Object [(lit "fileName", String (lit "../escaped.json"))])] in
  let before : @world Z :=
    {| dirs := ∅; files := {[ lit "escaped.json" := lit "{}" ]}; ticks := 0;
       events := [] |} in
  let saved :=
    saveData (fun z => negb (z =? 0)%Z) (fun _ => true) int_to_string
      (fun _ => example_now) posix_join (fun _ _ => None) (fun _ _ _ => None)
      payload (lit "./data") before in
  validateData payload = Normal true /\
  json_value (fun _ => true) int_to_string int_of_string payload /\
  dir_empty posix_join (lit "./data") before /\
  fst saved = Normal tt /\
  (exists text,
      JSON_stringify (fun _ => true) int_to_string payload = Some text /\
      JSON_parse int_of_string text = Some payload /\
      text <> lit "{}" /\
      files (snd saved) = {[ lit "escaped.json" := text ]}) /\
  dir_empty posix_join (lit "./data") (snd saved) /\
  size (files (snd saved)) = size (files before) /\
  dom (files (snd saved)) = dom (files before).
Proof.
  cbv zeta.
  set (payload := Object [(lit "url", String (lit "https://example.com"));
                          (lit "fileData",
                           Object [(lit "fileName", String (lit "../escaped.json"))])]
                  : @value Z).
  set (before := {| dirs := ∅; files := {[ lit "escaped.json" := lit "{}" ]};
                    ticks := 0; events := [] |} : @world Z).
  set (saved := saveData _ _ _ _ _ _ _ payload (lit "./data") before).
  assert (Hout : forall name, plain_name name = true ->
                              posix_join (lit "./data") name <> lit "escaped.json").
  { intros name Hn. rewrite (posix_join_plain name Hn). discriminate. }
  assert (Hfiles : files (snd saved) =
                   {[ lit "escaped.json" :=
                        text_of (fun _ => true) int_to_string [] payload ]})
    by (vm_compute; reflexivity).
  split; [reflexivity|]. split.
  { apply json_object.
    - apply (bool_decide_unpack _). vm_compute. exact I.
    - constructor; [apply json_string|].
      constructor; [|constructor].
      apply json_object.
      + apply (bool_decide_unpack _). vm_compute. exact I.
      + constructor; [apply json_string | constructor]. }
  split.
  { intros name Hn. apply lookup_singleton_ne. intros E. symmetry in E.
    exact (Hout name Hn E). }
  split; [vm_compute; reflexivity|]. split.
  { exists (text_of (fun _ => true) int_to_string [] payload).
    split; [vm_compute; reflexivity|]. split; [vm_compute; reflexivity|].
    split; [intros E; vm_compute in E; discriminate | exact Hfiles]. }
  split.
  { intros name Hn. rewrite Hfiles. apply lookup_singleton_ne. intros E.
    symmetry in E. exact (Hout name Hn E). }
  rewrite Hfiles. split.
  - rewrite !map_size_singleton. reflexivity.
  - cbn [files before]. rewrite !dom_singleton_L. reflexivity.
Qed.

(** ** Examples for the further properties *)

(** A payload that names no file has no [fileData]. *)
Lemma plain_names_no_file (s : list N) :
  ~ names_file (@Object Z [(lit "url", String (lit "https://example.com"))]) s.
Proof.
  intros (props & fd & [= <-] & Hfd & _). vm_compute in Hfd. discriminate.
Qed.

Lemma named_names_file (url : list N) :
  names_file
    (@Object Z [(lit "url", String url);
                (lit "fileData", Object [(lit "fileName", String (lit "report.json"))])])
    (lit "report.json").
Proof.
  eexists _, _. split; [reflexivity|]. split; [reflexivity|].
  split; [reflexivity|]. exists 114. split; [left; reflexivity | reflexivity].
Qed.

(** X4 on [8080/tcp]. *)
Lemma getPort_trailing_text_witness :
  getPort (lit "8080/tcp") = Normal 8080%Z.
Proof. exact (getPort_trailing_text 8080 (lit "/tcp") eq_refl). Defined.

(** X5 on [{"url": "https://example.com"}]. *)
Lemma validateData_stricter_witness :
  validateData (@Object Z [(lit "url", String (lit "https://example.com"))]) = Normal true /\
  validateData_a (@Object Z [(lit "url", String (lit "https://example.com"))]) = Normal true.
Proof. split; [reflexivity | apply validateData_stricter; reflexivity]. Defined.

Lemma example_now_in_calendar : in_calendar example_now.
Proof. unfold in_calendar. cbn. lia. Qed.

(** X7 at [example_now]. *)
Lemma timestamp_name_layout_witness :
  in_calendar example_now /\ length (timestamp_name example_now) = 33%nat.
Proof.
  split; [exact example_now_in_calendar|].
  exact (proj1 (timestamp_name_layout example_now example_now_in_calendar)).
Defined.

(** X8: the same local time in two time zones gives one name. *)
Lemma timestamp_name_same_iff_witness :
  let elsewhere :=
    {| year := 2026; month := 11; day := 3; hours := 14; minutes := 5;
       seconds := 9; milliseconds := 7;
       zone := lit "GMT+0100 (Central European Standard Time)" |} in
  timestamp_name example_now = timestamp_name elsewhere.
Proof.
  cbv zeta.
  apply (timestamp_name_same_iff example_now); [exact example_now_in_calendar | |].
  - unfold in_calendar. cbn. lia.
  - repeat split.
Defined.

(** X9 on a payload that names its file report.json. *)
Lemma saveData_uses_override_witness :
  let payload := @Object Z [(lit "url", String (lit "https://example.com"));
               (lit "fileData", Object [(lit "fileName", String (lit "report.json"))])] in
  let saved := saveData (fun z => negb (z =? 0)%Z) (fun _ => true) int_to_string (fun _ => example_now) slash_join
      (fun _ _ => None) (fun _ _ _ => None) payload (lit "./data") empty_world in
  names_file payload (lit "report.json") /\ ticks (snd saved) = 0%nat.
Proof.
  cbv zeta. split; [apply named_names_file|].
  exact (proj1 (saveData_uses_override (fun z => negb (z =? 0)%Z) (fun _ => true) int_to_string
                  (fun _ => example_now) slash_join (fun _ _ => None)
                  (fun _ _ _ => None) _ (lit "report.json") (lit "./data")
                  empty_world (named_names_file _))).
Defined.

(** X10 on a payload without [fileData]. *)
Lemma saveData_uses_clock_witness :
  let saved := saveData (fun z => negb (z =? 0)%Z) (fun _ => true) int_to_string (fun _ => example_now) slash_join
      (fun _ _ => None) (fun _ _ _ => None) (@Object Z [(lit "url", String (lit "https://example.com"))]) (lit "./data") empty_world in
  ticks (snd saved) = 1%nat.
Proof.
  cbv zeta.
  exact (proj1 (saveData_uses_clock (fun z => negb (z =? 0)%Z) (fun _ => true) int_to_string
                  (fun _ => example_now) slash_join (fun _ _ => None)
                  (fun _ _ _ => None) (@Object Z [(lit "url", String (lit "https://example.com"))]) (lit "./data") empty_world
                  eq_refl plain_names_no_file eq_refl)).
Defined.

(** X11 on two payloads that both name the file report.json. *)
Lemma saveData_same_name_overwrites_witness :
  let save := saveData (fun z => negb (z =? 0)%Z) (fun _ => true) int_to_string (fun _ => example_now) slash_join
      (fun _ _ => None) (fun _ _ _ => None) in
  let w1 := snd (save (@Object Z [(lit "url", String (lit "https://example.com"));
               (lit "fileData", Object [(lit "fileName", String (lit "report.json"))])]) (lit "./data") empty_world) in
  let w2 := snd (save (@Object Z [(lit "url", String (lit "https://example.org"));
               (lit "fileData", Object [(lit "fileName", String (lit "report.json"))])]) (lit "./data") w1) in
  size (files w2) = size (files w1).
Proof.
  cbv zeta.
  set (d1 := @Object Z [(lit "url", String (lit "https://example.com"));
               (lit "fileData", Object [(lit "fileName", String (lit "report.json"))])]).
  set (d2 := @Object Z [(lit "url", String (lit "https://example.org"));
               (lit "fileData", Object [(lit "fileName", String (lit "report.json"))])]).
  set (w1 := snd (saveData (fun z => negb (z =? 0)%Z) (fun _ => true) int_to_string
              (fun _ => example_now) slash_join (fun _ _ => None)
              (fun _ _ _ => None) d1 (lit "./data") empty_world)).
  set (w2 := snd (saveData (fun z => negb (z =? 0)%Z) (fun _ => true) int_to_string
              (fun _ => example_now) slash_join (fun _ _ => None)
              (fun _ _ _ => None) d2 (lit "./data") w1)).
  assert (E1 : saveData (fun z => negb (z =? 0)%Z) (fun _ => true) int_to_string
              (fun _ => example_now) slash_join (fun _ _ => None)
              (fun _ _ _ => None) d1 (lit "./data") empty_world = (Normal tt, w1))
    by (vm_compute; reflexivity).
  assert (E2 : saveData (fun z => negb (z =? 0)%Z) (fun _ => true) int_to_string
              (fun _ => example_now) slash_join (fun _ _ => None)
              (fun _ _ _ => None) d2 (lit "./data") w1 = (Normal tt, w2))
    by (vm_compute; reflexivity).
  destruct (saveData_same_name_overwrites (fun z => negb (z =? 0)%Z) (fun _ => true) int_to_string
              (fun _ => example_now) slash_join (fun _ _ => None)
              (fun _ _ _ => None) d1 d2 (lit "report.json")
              (lit "./data") empty_world w1 w2 (named_names_file _)
              (named_names_file _) E1 E2)
    as (text2 & _ & _ & H).
  exact H.
Defined.

(** X12 with a clock that stands still. *)
Lemma saveData_same_millisecond_witness :
  let save := saveData (fun z => negb (z =? 0)%Z) (fun _ => true) int_to_string (fun _ => example_now) slash_join
      (fun _ _ => None) (fun _ _ _ => None) in
  let w1 := snd (save (@Object Z [(lit "url", String (lit "https://example.com"))]) (lit "./data") empty_world) in
  let w2 := snd (save (@Object Z [(lit "url", String (lit "https://example.com"))]) (lit "./data") w1) in
  size (files w2) = size (files w1).
Proof.
  cbv zeta.
  set (d := @Object Z [(lit "url", String (lit "https://example.com"))]).
  set (w1 := snd (saveData (fun z => negb (z =? 0)%Z) (fun _ => true) int_to_string
              (fun _ => example_now) slash_join (fun _ _ => None)
              (fun _ _ _ => None) d (lit "./data") empty_world)).
  set (w2 := snd (saveData (fun z => negb (z =? 0)%Z) (fun _ => true) int_to_string
              (fun _ => example_now) slash_join (fun _ _ => None)
              (fun _ _ _ => None) d (lit "./data") w1)).
  assert (E1 : saveData (fun z => negb (z =? 0)%Z) (fun _ => true) int_to_string
              (fun _ => example_now) slash_join (fun _ _ => None)
              (fun _ _ _ => None) d (lit "./data") empty_world = (Normal tt, w1))
    by (vm_compute; reflexivity).
  assert (E2 : saveData (fun z => negb (z =? 0)%Z) (fun _ => true) int_to_string
              (fun _ => example_now) slash_join (fun _ _ => None)
              (fun _ _ _ => None) d (lit "./data") w1 = (Normal tt, w2))
    by (vm_compute; reflexivity).
  assert (Hs : same_local_time example_now example_now) by (repeat split).
  destruct (saveData_same_millisecond (fun z => negb (z =? 0)%Z) (fun _ => true) int_to_string
              (fun _ => example_now) slash_join (fun _ _ => None)
              (fun _ _ _ => None) d d (lit "./data") empty_world w1 w2
              eq_refl plain_names_no_file eq_refl plain_names_no_file Hs E1 E2)
    as (text2 & _ & _ & H).
  exact H.
Defined.

(** X13 on the payload [null]. *)
Lemma saveData_nullish_witness :
  let saved := saveData (fun z => negb (z =? 0)%Z) (fun _ => true) int_to_string (fun _ => example_now) slash_join
      (fun _ _ => None) (fun _ _ _ => None) (@Null Z) (lit "./data") empty_world in
  fst saved = Throw (Error (lit "Failed to save data")) /\
  dirs (snd saved) = {[ lit "./data" ]} ∪ dirs (@empty_world Z).
Proof.
  cbv zeta.
  destruct (saveData_nullish (fun z => negb (z =? 0)%Z) (fun _ => true) int_to_string (fun _ => example_now)
              slash_join (fun _ _ => None) (fun _ _ _ => None) Null (lit "./data")
              empty_world eq_refl eq_refl)
    as (cause & w' & E & _ & _ & Hd & _).
  rewrite E. split; [reflexivity | exact Hd].
Defined.

(** X14 on a payload that is an array. *)
Lemma saveData_succeeds_iff_witness :
  fst (saveData (fun z => negb (z =? 0)%Z) (fun _ => true) int_to_string (fun _ => example_now) slash_join
      (fun _ _ => None) (fun _ _ _ => None) (@Array Z [Number 1%Z; Null]) (lit "./data") empty_world) = Normal tt.
Proof.
  apply (saveData_succeeds_iff (fun z => negb (z =? 0)%Z) (fun _ => true) int_to_string (fun _ => example_now)
           slash_join (fun _ _ => None) (fun _ _ _ => None));
    [intros; reflexivity | intros; reflexivity | reflexivity].
Defined.

(** X15 with a file system that makes the directory and refuses the
    write. *)
Lemma saveData_makes_directory_witness :
  dirs (snd (saveData (fun z => negb (z =? 0)%Z) (fun _ => true) int_to_string (fun _ => example_now) slash_join
               (fun _ _ => None)
               (fun _ _ _ => Some (Error (lit "ENOSPC: no space left on device, write")))
               (@Object Z [(lit "url", String (lit "https://example.com"))]) (lit "./data") empty_world)) =
  {[ lit "./data" ]} ∪ dirs (@empty_world Z).
Proof.
  exact (saveData_makes_directory (fun z => negb (z =? 0)%Z) (fun _ => true) int_to_string (fun _ => example_now)
           slash_join (fun _ _ => None)
           (fun _ _ _ => Some (Error (lit "ENOSPC: no space left on device, write")))
           (@Object Z [(lit "url", String (lit "https://example.com"))]) (lit "./data") empty_world eq_refl).
Defined.

(** X17 on a payload without [fileData]. *)
Lemma saveData_v1_agrees_witness :
  saveData_v1 (fun _ => true) int_to_string (fun _ => example_now) slash_join
      (fun _ _ => None) (fun _ _ _ => None) (@Object Z [(lit "url", String (lit "https://example.com"))]) (lit "./data") empty_world =
  saveData (fun z => negb (z =? 0)%Z) (fun _ => true) int_to_string (fun _ => example_now) slash_join
      (fun _ _ => None) (fun _ _ _ => None) (@Object Z [(lit "url", String (lit "https://example.com"))]) (lit "./data") empty_world.
Proof.
  exact (saveData_v1_agrees (fun z => negb (z =? 0)%Z) (fun _ => true) int_to_string (fun _ => example_now)
           slash_join (fun _ _ => None) (fun _ _ _ => None) (@Object Z [(lit "url", String (lit "https://example.com"))])
           (lit "./data") empty_world eq_refl plain_names_no_file).
Defined.

(** X18 on a payload that names its file: the earlier persister writes to
    the synthesized name all the same. *)
Lemma saveData_v1_ignores_payload_witness :
  let payload := @Object Z [(lit "url", String (lit "https://example.com"));
               (lit "fileData", Object [(lit "fileName", String (lit "report.json"))])] in
  let saved := saveData_v1 (fun _ => true) int_to_string (fun _ => example_now) slash_join
      (fun _ _ => None) (fun _ _ _ => None) payload (lit "./data") empty_world in
  exists text,
    files (snd saved) =
    <[ slash_join (lit "./data") (lit "data-03-11-2026_14-05-09-007.json") := text ]>
      (files (@empty_world Z)).
Proof.
  cbv zeta.
  destruct (proj1 (saveData_v1_ignores_payload (fun _ => true) int_to_string
                     (fun _ => example_now) slash_join (fun _ _ => None)
                     (fun _ _ _ => None)
                     (@Object Z [(lit "url", String (lit "https://example.com"));
               (lit "fileData", Object [(lit "fileName", String (lit "report.json"))])]) (lit "./data") empty_world)
              _ ltac:(vm_compute; reflexivity))
    as (text & _ & H).
  exists text. exact H.
Defined.

(** X20 on a POST with the body [{}]. *)
Lemma handle_read_only_witness :
  let w' :=
    snd (handle (fun z => negb (z =? 0)%Z) (fun _ => true) int_to_string (fun _ => example_now)
           (fun _ => lit "2026-11-03T14:05:09.007Z") message slash_join
           (fun _ _ => None) (fun _ _ _ => None) (lit "./data")
           (PostProcess (@Object Z [])) empty_world) in
  fs_calls w' = fs_calls (@empty_world Z) /\ dirs w' = dirs (@empty_world Z) /\
  files w' = files (@empty_world Z).
Proof.
  apply (handle_read_only (fun z => negb (z =? 0)%Z) (fun _ => true) int_to_string (fun _ => example_now)
           (fun _ => lit "2026-11-03T14:05:09.007Z") message slash_join
           (fun _ _ => None) (fun _ _ _ => None) (lit "./data")
           (PostProcess (@Object Z [])) empty_world).
  intros req_body [= <-]. discriminate.
Defined.

(** X21 with a file system that may not make the directory. *)
Lemma post_process_hides_cause_witness :
  let denied := Error (lit "EACCES: permission denied, mkdir './data'") in
  responses
    (snd (post_process (fun z => negb (z =? 0)%Z) (fun _ => true) int_to_string (fun _ => example_now)
      (fun _ => lit "2026-11-03T14:05:09.007Z") message slash_join (fun _ _ => Some denied) (fun _ _ _ => None) (lit "./data")
            (@Object Z [(lit "url", String (lit "https://example.com"))]) empty_world)) =
  [(500, save_failed)].
Proof.
  cbv zeta. unfold responses.
  rewrite (post_process_hides_cause (fun z => negb (z =? 0)%Z) (fun _ => true) int_to_string (fun _ => example_now)
             (fun _ => lit "2026-11-03T14:05:09.007Z") message slash_join
             (fun _ _ => Some (Error (lit "EACCES: permission denied, mkdir './data'")))
             (fun _ _ _ => None) (lit "./data") (@Object Z [(lit "url", String (lit "https://example.com"))])
             (Error (lit "EACCES: permission denied, mkdir './data'"))
             empty_world eq_refl eq_refl).
  reflexivity.
Defined.

(** X22 on the body [{"url": "https://example.com"}]. *)
Lemma post_process_stores_body_witness :
  let payload := @Object Z [(lit "url", String (lit "https://example.com"))] in
  let w' :=
    snd (post_process (fun z => negb (z =? 0)%Z) (fun _ => true) int_to_string (fun _ => example_now)
      (fun _ => lit "2026-11-03T14:05:09.007Z") message slash_join (fun _ _ => None) (fun _ _ _ => None) (lit "./data")
           payload empty_world) in
  exists name text,
    JSON_parse int_of_string text = Some payload /\
    files w' = <[ slash_join (lit "./data") name := text ]> (files (@empty_world Z)).
Proof.
  cbv zeta.
  assert (Hj : json_value (fun _ => true) int_to_string int_of_string (@Object Z [(lit "url", String (lit "https://example.com"))])).
  { apply json_object.
    - apply (bool_decide_unpack _). vm_compute. exact I.
    - repeat constructor. }
  destruct (post_process_stores_body (fun z => negb (z =? 0)%Z) (fun _ => true) int_to_string int_of_string
              (fun _ => example_now) (fun _ => lit "2026-11-03T14:05:09.007Z")
              message slash_join (fun _ _ => None) (fun _ _ _ => None)
              (lit "./data") (@Object Z [(lit "url", String (lit "https://example.com"))]) empty_world eq_refl Hj
              (fun _ _ => eq_refl) (fun _ _ _ => eq_refl))
    as (name & text & stamp & _ & Hp & Hf & _).
  exists name, text. split; [exact Hp | exact Hf].
Defined.

(** X23 on the payload
    [{"url": "https://example.com", "count": 3, "tags": ["a", null, true]}],
    saved to ./data in an empty world: the save succeeds, the text parses
    back to the payload, and there is exactly one file. *)
Lemma saveData_stores_payload_witness :
  let payload : @value Z :=
    Object [(lit "url", String (lit "https://example.com"));
            (lit "count", Number 3%Z);
            (lit "tags", Array [String (lit "a"); Null; Bool true])] in
  let saved :=
    saveData (fun z => negb (z =? 0)%Z) (fun _ => true) int_to_string
      (fun _ => example_now) posix_join (fun _ _ => None) (fun _ _ _ => None)
      payload (lit "./data") empty_world in
  json_value (fun _ => true) int_to_string int_of_string payload /\
  fst saved = Normal tt /\
  (exists text,
      JSON_stringify (fun _ => true) int_to_string payload = Some text /\
      JSON_parse int_of_string text = Some payload /\
      files (snd saved) =
        {[ lit "data/data-03-11-2026_14-05-09-007.json" := text ]}) /\
  size (files (snd saved)) = 1%nat.
Proof.
  cbv zeta.
  set (payload := Object [(lit "url", String (lit "https://example.com"));
                          (lit "count", Number 3%Z);
                          (lit "tags", Array [String (lit "a"); Null; Bool true])]
                  : @value Z).
  set (saved := saveData _ _ _ _ _ _ _ payload (lit "./data") empty_world).
  assert (Hj : json_value (fun _ => true) int_to_string int_of_string payload).
  { apply json_object.
    - apply (bool_decide_unpack _). vm_compute. exact I.
    - repeat constructor; vm_compute; reflexivity. }
  assert (Hs : saved = (Normal tt, snd saved)) by (vm_compute; reflexivity).
  destruct (saveData_stores_payload (fun z => negb (z =? 0)%Z) (fun _ => true)
              int_to_string int_of_string (fun _ => example_now) posix_join
              (fun _ _ => None) (fun _ _ _ => None) payload (lit "./data")
              empty_world (snd saved) Hj Hs)
    as (name & text & H1 & H2 & _ & Hn & H3 & _ & _ & H6).
  assert (Hp : plain_name name = true).
  { destruct Hn as [Hn | (_ & _ & Hn)]; [|exact Hn].
    destruct Hn as (props & fd & [= <-] & Hfd & _). vm_compute in Hfd.
    discriminate. }
  split; [exact Hj|]. split; [rewrite Hs; reflexivity|].
  destruct (H6 (fun name _ => lookup_empty _) Hp) as (H7 & _).
  split; [|exact H7].
  exists text. split; [exact H1|]. split; [exact H2|].
  assert (E : JSON_stringify (fun _ => true) int_to_string payload =
              Some (text_of (fun _ => true) int_to_string [] payload))
    by (vm_compute; reflexivity).
  assert (text = text_of (fun _ => true) int_to_string [] payload) as -> by congruence.
  vm_compute. reflexivity.
Defined.
